(** * The health-analysis endpoint ([src/app/api/analyze-health/route.ts])

    A shallow embedding of the [POST] and [GET] handlers of the route,
    together with the constants of [types/health] they use, and the
    properties of the request pipeline proved on that embedding.

    JavaScript strings are sequences of UTF-16 code units; the handler's
    string operations ([replace], [trim], [includes], [substring]) are
    defined on those sequences.  The collaborators the handler awaits (the
    database connection, the generative model, the persistence model and
    the reward service) are given by a [World] record, and every call made
    to them is recorded in the state the handler threads through. *)

From Stdlib Require Import String Ascii.
From Stdlib Require Import List NArith ZArith Bool Lia.
From Equations Require Import Equations.
From Equations.Prop Require Import Logic.
Import ListNotations.

Local Open Scope N_scope.
Local Open Scope list_scope.

(** ** JavaScript strings *)

(** A UTF-16 code unit. *)
Definition char16 : Type := N.

(** A JavaScript string value: its sequence of code units. *)
Definition jsstring : Type := list char16.

(** The code units of one Unicode code point (a surrogate pair above the
    basic plane). *)
Definition code_units (cp : N) : jsstring :=
  if cp <? 65536 then [cp]
  else [55296 + (cp - 65536) / 1024; 56320 + (cp - 65536) mod 1024].

(** The source file is UTF-8; [utf8_decode] reads the bytes of a literal and
    yields the code units the JavaScript engine holds for it.  [acc] is the
    code point being assembled and [need] the continuation bytes it still
    lacks. *)
Fixpoint utf8_decode (s : string) (acc : N) (need : nat) : jsstring :=
  match s with
  | EmptyString => []
  | String a s' =>
      let b := N_of_ascii a in
      match need with
      | O =>
          if b <? 128 then b :: utf8_decode s' 0 O
          else if b <? 224 then utf8_decode s' (b - 192) 1%nat
          else if b <? 240 then utf8_decode s' (b - 224) 2%nat
          else utf8_decode s' (b - 240) 3%nat
      | S O => code_units (acc * 64 + (b - 128)) ++ utf8_decode s' 0 O
      | S k => utf8_decode s' (acc * 64 + (b - 128)) k
      end
  end.

(** A string literal of the source. *)
Definition lit (s : string) : jsstring := utf8_decode s 0 O.

Definition char_eqb (a b : char16) : bool := a =? b.

Fixpoint jsstring_eqb (s t : jsstring) : bool :=
  match s, t with
  | [], [] => true
  | a :: s', b :: t' => char_eqb a b && jsstring_eqb s' t'
  | _, _ => false
  end.

(** The line feed, the only character the two fence patterns name besides
    the literal text. *)
Definition LF : char16 := 10.

(** [strip_prefix p s]: the rest of [s] after [p], when [s] starts with [p]. *)
Fixpoint strip_prefix (p s : jsstring) : option jsstring :=
  match p with
  | [] => Some s
  | a :: p' =>
      match s with
      | [] => None
      | b :: s' => if char_eqb a b then strip_prefix p' s' else None
      end
  end.

(** The greedy [\n?] at the end of both patterns. *)
Definition skip_LF (s : jsstring) : jsstring :=
  match s with
  | c :: s' => if char_eqb c LF then s' else s
  | [] => []
  end.

(** One attempt of the pattern [/<c0 p>\n?/] at the start of [s]: the rest
    of [s] after the match. The literal part [c0 :: p] is not empty, as in
    both patterns of the route. *)
Definition match_here (c0 : char16) (p s : jsstring) : option jsstring :=
  match strip_prefix (c0 :: p) s with
  | Some rest => Some (skip_LF rest)
  | None => None
  end.

Lemma strip_prefix_length p s rest :
  strip_prefix p s = Some rest -> length s = (length p + length rest)%nat.
Proof.
  revert s; induction p as [|a p IH]; intros [|b s] H; simpl in *;
    try discriminate.
  - now inversion H.
  - now inversion H.
  - destruct (char_eqb a b); [|discriminate]. now rewrite (IH _ H).
Qed.

Lemma skip_LF_length s : (length (skip_LF s) <= length s)%nat.
Proof.
  destruct s as [|c s]; simpl; [lia|]. destruct (char_eqb c LF); simpl; lia.
Qed.

Lemma match_here_shorter c0 p s rest :
  match_here c0 p s = Some rest -> (length rest < length s)%nat.
Proof.
  unfold match_here. destruct (strip_prefix (c0 :: p) s) as [r|] eqn:E;
    [|discriminate].
  intros H; inversion H; subst. apply strip_prefix_length in E.
  pose proof (skip_LF_length r). simpl in E. lia.
Qed.

(** [s.replace(/<c0 p>\n?/g, '')]: the global replace scans from the left;
    where the pattern matches, the match is dropped and the scan resumes
    right after it; elsewhere the character is kept. *)
Equations? replace_global (c0 : char16) (p : jsstring) (s : jsstring) : jsstring
  by wf (length s) lt :=
  replace_global c0 p [] := [];
  replace_global c0 p (c :: s') with inspect (match_here c0 p (c :: s')) := {
    | exist _ (Some rest) E => replace_global c0 p rest;
    | exist _ None _ => c :: replace_global c0 p s' }.
Proof.
  apply match_here_shorter in E. exact E.
Qed.

(** The two passes of the route, [.replace(/```json\n?/g, '')] and
    [.replace(/```\n?/g, '')]. The backquote is code unit 96. *)
Definition BACKQUOTE : char16 := 96.

Definition replace_json_fence (s : jsstring) : jsstring :=
  replace_global BACKQUOTE (lit "``json") s.

Definition replace_fence (s : jsstring) : jsstring :=
  replace_global BACKQUOTE (lit "``") s.

(** [WhiteSpace] and [LineTerminator] of ECMAScript, which [trim] removes:
    TAB, LF, VT, FF, CR, SP, NBSP, U+1680, U+2000..U+200A, U+2028, U+2029,
    U+202F, U+205F, U+3000 and the byte-order mark. *)
Definition is_space (c : char16) : bool :=
  ((9 <=? c) && (c <=? 13)) || (c =? 32) || (c =? 160) || (c =? 5760)
  || ((8192 <=? c) && (c <=? 8202)) || (c =? 8232) || (c =? 8233)
  || (c =? 8239) || (c =? 8287) || (c =? 12288) || (c =? 65279).

Fixpoint trimStart (s : jsstring) : jsstring :=
  match s with
  | c :: s' => if is_space c then trimStart s' else s
  | [] => []
  end.

Definition trimEnd (s : jsstring) : jsstring := rev (trimStart (rev s)).

Definition trim (s : jsstring) : jsstring := trimEnd (trimStart s).

(** The cleaning both parse sites apply to the model's text. *)
Definition clean (text : jsstring) : jsstring :=
  trim (replace_fence (replace_json_fence text)).

(** [s.includes(p)]. *)
Fixpoint includes (s p : jsstring) : bool :=
  match strip_prefix p s with
  | Some _ => true
  | None =>
      match s with
      | [] => false
      | _ :: s' => includes s' p
      end
  end.

(** [s.substring(a, b)]: both indices are clamped to the length and swapped
    when out of order. *)
Definition substring (s : jsstring) (a b : nat) : jsstring :=
  let a' := Nat.min a (length s) in
  let b' := Nat.min b (length s) in
  let from := Nat.min a' b' in
  let to := Nat.max a' b' in
  firstn (to - from) (skipn from s).

(** Decimal digits of a natural number, most significant first; [fuel]
    bounds the number of digits. *)
Fixpoint digits_fuel (fuel : nat) (n : N) (acc : jsstring) : jsstring :=
  match fuel with
  | O => acc
  | S f =>
      let acc' := (48 + n mod 10) :: acc in
      if n <? 10 then acc' else digits_fuel f (n / 10) acc'
  end.

(** [String(n)] for an integral Number [n] below 10^21, where the engine
    prints plain digits. A number has no more decimal digits than bits. *)
Definition decimal (n : N) : jsstring :=
  digits_fuel (S (N.to_nat (N.log2 n))) n [].

(** [(size / 1024 / 1024).toFixed(2)] for a file size. Dividing an integral
    Number below 2^53 by 1024 twice is exact, so the receiver is the
    rational [size / 2^20]. [toFixed] takes the integer [n] for which
    [n / 100 - x] is closest to zero, the larger one on a tie, writes its
    digits, pads them with zeros to three at least and puts the point
    before the last two. *)
Definition toFixed2_n (size : N) : N := (200 * size + 1048576) / 2097152.

Definition pad_zeros (k : nat) (m : jsstring) : jsstring :=
  repeat 48 (k - length m) ++ m.

Definition toFixed2_MiB (size : N) : jsstring :=
  let m := pad_zeros 3 (decimal (toFixed2_n size)) in
  let k := length m in
  firstn (k - 2) m ++ lit "." ++ skipn (k - 2) m.

(** [Buffer.from(bytes).toString('base64')]: the standard alphabet, with
    padding. Bytes are numbers below 256. *)
Definition base64_char (i : N) : char16 :=
  if i <? 26 then 65 + i
  else if i <? 52 then 97 + (i - 26)
  else if i <? 62 then 48 + (i - 52)
  else if i =? 62 then 43 else 47.

Fixpoint base64 (bytes : list N) : jsstring :=
  match bytes with
  | [] => []
  | [a] => [base64_char (a / 4); base64_char ((a mod 4) * 16); 61; 61]
  | [a; b] =>
      [base64_char (a / 4); base64_char ((a mod 4) * 16 + b / 16);
       base64_char ((b mod 16) * 4); 61]
  | a :: b :: c :: rest =>
      base64_char (a / 4) :: base64_char ((a mod 4) * 16 + b / 16)
      :: base64_char ((b mod 16) * 4 + c / 64) :: base64_char (c mod 64)
      :: base64 rest
  end.

(** ** Values, errors and completions *)

(** What [JSON.parse] returns. Numbers are those of the engine, of a type
    [Num] the runtime provides. An object keeps its properties in insertion
    order, each key once. *)
#[warnings="-register-all"]
Inductive Value (Num : Type) : Type :=
| VNull
| VBoolean (b : bool)
| VNumber (n : Num)
| VString (s : jsstring)
| VArray (elements : list (Value Num))
| VObject (properties : list (jsstring * Value Num)).

Arguments VNull {Num}.
Arguments VBoolean {Num} b.
Arguments VNumber {Num} n.
Arguments VString {Num} s.
Arguments VArray {Num} elements.
Arguments VObject {Num} properties.

(** What the engine provides and the route does not define: the Number
    type with its conversions, and [JSON.parse], which returns a value or
    throws a [SyntaxError] ([None]). *)
Class Runtime : Type := {
  Num : Type;
  Number_of_N : N -> Num;
  NumberToString : Num -> jsstring;
  NumberToBoolean : Num -> bool;
  JSON_parse : jsstring -> option (Value Num)
}.

(** A thrown [Error]; the handler reads nothing but [message], and reads it
    with [?.], so it may be missing. *)
Record JsError : Type := { message : option jsstring }.

Inductive Completion (A : Type) : Type :=
| Normal (a : A)
| Throw (e : JsError).

Arguments Normal {A} a.
Arguments Throw {A} e.

(** The [TypeError]s the engine raises in the handler's own expressions. *)
Definition TypeError_null_property (key : jsstring) : JsError :=
  {| message :=
       Some (lit "Cannot read properties of null (reading '" ++ key
             ++ lit "')") |}.

Definition TypeError_to_primitive : JsError :=
  {| message := Some (lit "Cannot convert object to primitive value") |}.

Section Values.
Context {RT : Runtime}.

Definition JSON : Type := Value Num.

Fixpoint own_property (key : jsstring) (props : list (jsstring * JSON))
  : option JSON :=
  match props with
  | [] => None
  | (k, v) :: props' =>
      if jsstring_eqb k key then Some v else own_property key props'
  end.

(** [v.key], for the property names the handler reads
    ([isHealthDocument], [documentType], [confidence], [reason]): no
    prototype defines them, so only an object's own property answers, and
    reading them from [null] throws. [None] is [undefined]. *)
Definition Get (v : JSON) (key : jsstring) : Completion (option JSON) :=
  match v with
  | VNull => Throw (TypeError_null_property key)
  | VObject props => Normal (own_property key props)
  | _ => Normal None
  end.

(** [ToBoolean]. *)
Definition ToBoolean (v : option JSON) : bool :=
  match v with
  | None => false
  | Some VNull => false
  | Some (VBoolean b) => b
  | Some (VNumber n) => NumberToBoolean n
  | Some (VString s) => negb (jsstring_eqb s [])
  | Some (VArray _) => true
  | Some (VObject _) => true
  end.

(** [ToString], as a template literal applies it. An array is joined
    with commas, [null] elements printing as nothing. A plain object
    prints through [Object.prototype.toString], unless an own property
    named [toString] hides it: a parsed value is never callable, and
    [valueOf] returns no primitive, so the conversion throws. *)
Fixpoint ToString (v : JSON) : Completion jsstring :=
  match v with
  | VNull => Normal (lit "null")
  | VBoolean b => Normal (if b then lit "true" else lit "false")
  | VNumber n => Normal (NumberToString n)
  | VString s => Normal s
  | VArray elements =>
      let element (x : JSON) : Completion jsstring :=
        match x with
        | VNull => Normal []
        | _ => ToString x
        end in
      (fix join (l : list JSON) : Completion jsstring :=
         match l with
         | [] => Normal []
         | [x] => element x
         | x :: l' =>
             match element x with
             | Throw e => Throw e
             | Normal sx =>
                 match join l' with
                 | Throw e => Throw e
                 | Normal sl => Normal (sx ++ lit "," ++ sl)
                 end
             end
         end) elements
  | VObject props =>
      match own_property (lit "toString") props with
      | Some _ => Throw TypeError_to_primitive
      | None => Normal (lit "[object Object]")
      end
  end.

(** [`${x}`] for a possibly [undefined] [x]. *)
Definition ToString_opt (v : option JSON) : Completion jsstring :=
  match v with
  | None => Normal (lit "undefined")
  | Some x => ToString x
  end.

End Values.

(** ** [types/health] *)

Definition ALLOWED_FILE_TYPES : list jsstring :=
  [ lit "application/pdf";
    lit "text/csv";
    lit "application/msword";
    lit "application/vnd.openxmlformats-officedocument.wordprocessingml.document";
    lit "image/png";
    lit "image/jpeg";
    lit "image/jpg" ].

Definition MAX_FILE_SIZE : N := 20 * 1024 * 1024.

(** [ALLOWED_FILE_TYPES.includes(x)]. *)
Definition Array_includes (l : list jsstring) (x : jsstring) : bool :=
  existsb (fun y => jsstring_eqb y x) l.

(** ** The route *)

(** The two instruction texts. The handler only hands them to the model, so
    they are kept as the names of the constants. *)
Inductive Prompt : Type :=
| HEALTH_DOCUMENT_CHECK_PROMPT
| JSON_ANALYSIS_PROMPT.

(** The second part of a [generateContent] request. *)
Record InlineData : Type := {
  data : jsstring;
  mimeType : jsstring
}.

(** The uploaded [File]: [arrayBuffer()] is awaited only once the upload
    has been accepted. *)
Record File : Type := {
  File_name : jsstring;
  File_type : jsstring;
  File_size : N;
  File_arrayBuffer : unit -> Completion (list N)
}.

(** What the handler reads from the form: [formData.get('file')] and
    [formData.get('walletAddress')], [null] ([None]) when absent. *)
Record FormData : Type := {
  FormData_file : option File;
  FormData_walletAddress : option jsstring
}.

(** The result of [generateContent]: [result.response.text()] may itself
    throw. *)
Record GenerateContentResult : Type := {
  response_text : Completion jsstring
}.

Section Route.
Context {RT : Runtime}.

(** The document handed to [HealthAnalysis.create]. *)
Record AnalysisDoc : Type := {
  doc_walletAddress : jsstring;
  doc_fileName : jsstring;
  doc_fileSize : N;
  doc_fileType : jsstring;
  doc_format : jsstring;
  doc_analysisData : JSON
}.

(** What [rewardUserForAnalysis] resolves to. *)
Record TokenReward : Type := {
  earnedTokens : Num;
  totalTokens : Num;
  isNewUser : bool
}.

Record TokenRewardView : Type := {
  earned : Num;
  total : Num;
  view_isNewUser : bool
}.

(** [HealthAnalysisResponse]; an absent field is [None]. *)
Record HealthAnalysisResponse : Type := {
  success : bool;
  analysis : option JSON;
  fileName : option jsstring;
  fileSize : option N;
  fileType : option jsstring;
  error : option jsstring;
  details : option jsstring;
  tokenReward : option TokenRewardView
}.

(** [NextResponse.json(body, { status })]. *)
Record Response : Type := {
  status : N;
  body : HealthAnalysisResponse
}.

Definition NextResponse_json (b : HealthAnalysisResponse) (st : N)
  : Response :=
  {| status := st; body := b |}.

(** A failure envelope: [{ success: false, error, details }]. *)
Definition failure (err : jsstring) (det : option jsstring)
  : HealthAnalysisResponse :=
  {| success := false; analysis := None; fileName := None;
     fileSize := None; fileType := None; error := Some err;
     details := det; tokenReward := None |}.

(** *** Collaborators and the calls made to them *)

Inductive Event : Type :=
| CallDbConnect
| CallGenerateContent (prompt : Prompt) (part : InlineData)
| CallCreate (doc : AnalysisDoc)
| CallReward (walletAddress : jsstring)
| ConsoleError (e : JsError).

(** One request and the answers of the collaborators it may await. The
    model handle ([gemini-2.5-flash] with its generation configuration)
    is the same for both calls, so a call is told by its two parts. *)
Record World : Type := {
  dbConnect_result : Completion unit;
  request_formData : Completion FormData;
  model_generateContent :
    Prompt -> InlineData -> Completion GenerateContentResult;
  HealthAnalysis_create_result : AnalysisDoc -> Completion unit;
  rewardUserForAnalysis_result : jsstring -> Completion TokenReward
}.

(** The state a request runs in: the calls made so far, oldest first, and
    the stored analyses. *)
Record State : Type := {
  calls : list Event;
  collection : list AnalysisDoc
}.

Definition M (A : Type) : Type := State -> Completion A * State.

Definition ret {A} (a : A) : M A := fun st => (Normal a, st).

Definition bind {A B} (m : M A) (k : A -> M B) : M B :=
  fun st =>
    match m st with
    | (Normal a, st') => k a st'
    | (Throw e, st') => (Throw e, st')
    end.

Definition lift {A} (c : Completion A) : M A := fun st => (c, st).

Definition record_call (ev : Event) (st : State) : State :=
  {| calls := calls st ++ [ev]; collection := collection st |}.

(** [try { m } catch (error) { h error }]. *)
Definition try_catch {A} (m : M A) (h : JsError -> M A) : M A :=
  fun st =>
    match m st with
    | (Normal a, st') => (Normal a, st')
    | (Throw e, st') => h e st'
    end.

Notation "x <- m ;; k" := (bind m (fun x => k))
  (at level 61, m at next level, right associativity).

Definition dbConnect (w : World) : M unit :=
  fun st => (dbConnect_result w, record_call CallDbConnect st).

Definition generateContent (w : World) (prompt : Prompt)
  (part : InlineData) : M GenerateContentResult :=
  fun st => (model_generateContent w prompt part,
             record_call (CallGenerateContent prompt part) st).

(** Modelled from the spec: the persistence store behind
    [HealthAnalysis.create] ([lib/models/HealthAnalysis] is not part of
    the sources at hand). A create that resolves has stored the document;
    one that rejects has stored nothing. *)
Definition HealthAnalysis_create (w : World) (doc : AnalysisDoc) : M unit :=
  fun st =>
    let st' := record_call (CallCreate doc) st in
    match HealthAnalysis_create_result w doc with
    | Normal u =>
        (Normal u, {| calls := calls st';
                      collection := collection st' ++ [doc] |})
    | Throw e => (Throw e, st')
    end.

Definition rewardUserForAnalysis (w : World) (walletAddress : jsstring)
  : M TokenReward :=
  fun st => (rewardUserForAnalysis_result w walletAddress,
             record_call (CallReward walletAddress) st).

Definition console_error (e : JsError) : M unit :=
  fun st => (Normal tt, record_call (ConsoleError e) st).

(** *** [POST] *)

(** The verdict assumed when the classifier's reply does not parse. *)
Definition default_healthCheck : JSON :=
  VObject
    [ (lit "isHealthDocument", VBoolean true);
      (lit "confidence", VNumber (Number_of_N 50));
      (lit "documentType", VString (lit "Unknown"));
      (lit "reason", VString (lit "Could not verify document type")) ].

(** The [try]/[catch] around the first [JSON.parse]. *)
Definition parse_healthCheck (checkText : jsstring) : JSON :=
  match JSON_parse (clean checkText) with
  | Some v => v
  | None => default_healthCheck
  end.

(** The details of the rejection of a document that is not a health
    document; the three holes take the verdict's fields. *)
Definition not_health_details (documentType confidence reason : jsstring)
  : jsstring :=
  lit "Document Analysis:

Type: " ++ documentType
  ++ lit "
Confidence: " ++ confidence
  ++ lit "%

Reason: " ++ reason
  ++ lit "

This system is designed exclusively for analyzing medical and health-related documents such as:
• Laboratory test results (blood tests, urine analysis, etc.)
• Medical imaging reports (X-ray, MRI, CT scan, ultrasound)
• Doctor's medical reports and prescriptions
• Vaccination records and immunization certificates
• Health screening and check-up results
• Medical diagnosis and treatment plans
• Chronic disease monitoring reports
• Medical examination findings

The uploaded document does not appear to contain medical or health data. Please upload a valid health document for analysis.

If you believe this is a medical document, please ensure:
1. The document is clearly readable and not corrupted
2. Medical terminology and test results are visible
3. The document format is supported (PDF, images, DOC, DOCX)

For accurate health analysis, please provide documents from:
- Hospitals and medical laboratories
- Licensed healthcare providers
- Certified medical diagnostic centers
- Official health institutions".

(** STEP 2 of the handler: the detailed analysis, its parse, the insert
    and the reward. *)
Definition POST_step2 (w : World) (file : File) (walletAddress : jsstring)
  (part : InlineData) : M Response :=
  result <- generateContent w JSON_ANALYSIS_PROMPT part ;;
  analysisText <- lift (response_text result) ;;
  match JSON_parse (clean analysisText) with
  | None =>
      ret (NextResponse_json
             (failure (lit "Failed to parse AI analysis")
                (Some (lit "The AI returned an invalid response format. Raw response: "
                       ++ substring analysisText 0 500 ++ lit "...")))
             500)
  | Some parsedAnalysis =>
      _ <- HealthAnalysis_create w
             {| doc_walletAddress := walletAddress;
                doc_fileName := File_name file;
                doc_fileSize := File_size file;
                doc_fileType := File_type file;
                doc_format := lit "json";
                doc_analysisData := parsedAnalysis |} ;;
      tokenReward <- rewardUserForAnalysis w walletAddress ;;
      ret (NextResponse_json
             {| success := true;
                analysis := Some parsedAnalysis;
                fileName := Some (File_name file);
                fileSize := Some (File_size file);
                fileType := Some (File_type file);
                error := None;
                details := None;
                tokenReward :=
                  Some {| earned := earnedTokens tokenReward;
                          total := totalTokens tokenReward;
                          view_isNewUser := isNewUser tokenReward |} |}
             200)
  end.

(** STEP 1, once the model has answered: the parse of the health check
    and the early return for a document that is not a health document. *)
Definition POST_health_check (w : World) (file : File)
  (walletAddress : jsstring) (part : InlineData) (checkText : jsstring)
  : M Response :=
  let healthCheck := parse_healthCheck checkText in
  isHealthDocument <- lift (Get healthCheck (lit "isHealthDocument")) ;;
  if negb (ToBoolean isHealthDocument) then
    documentType <- lift (Get healthCheck (lit "documentType")) ;;
    documentType_s <- lift (ToString_opt documentType) ;;
    confidence <- lift (Get healthCheck (lit "confidence")) ;;
    confidence_s <- lift (ToString_opt confidence) ;;
    reason <- lift (Get healthCheck (lit "reason")) ;;
    reason_s <- lift (ToString_opt reason) ;;
    ret (NextResponse_json
           (failure (lit "This document is not health-related")
              (Some (not_health_details documentType_s confidence_s
                       reason_s)))
           400)
  else POST_step2 w file walletAddress part.

(** STEP 1 of the handler, from the conversion of the accepted file on:
    the file is read and encoded, and the model is asked whether it is a
    health document. *)
Definition POST_step1 (w : World) (file : File) (walletAddress : jsstring)
  : M Response :=
  bytes <- lift (File_arrayBuffer file tt) ;;
  let base64Data := base64 bytes in
  let part := {| data := base64Data; mimeType := File_type file |} in
  checkResult <- generateContent w HEALTH_DOCUMENT_CHECK_PROMPT part ;;
  checkText <- lift (response_text checkResult) ;;
  POST_health_check w file walletAddress part checkText.

(** The body of the outer [try]. *)
Definition POST_try (w : World) : M Response :=
  _ <- dbConnect w ;;
  match request_formData w with
  | Throw formDataError =>
      ret (NextResponse_json
             (failure (lit "Invalid request format")
                (Some (lit "Request body must be sent as multipart/form-data. Please ensure you are sending the file using FormData with the correct Content-Type header.")))
             400)
  | Normal formData =>
      let no_wallet :=
        ret (NextResponse_json
               (failure (lit "Wallet adresi gerekli. Lütfen wallet adresinizi gönderin.")
                  None)
               400) in
      match FormData_file formData with
      | None =>
          ret (NextResponse_json
                 (failure (lit "Dosya bulunamadı. Lütfen bir dosya yükleyin.")
                    None)
                 400)
      | Some file =>
          match FormData_walletAddress formData with
          | None => no_wallet
          | Some [] => no_wallet
          | Some walletAddress =>
              if negb (Array_includes ALLOWED_FILE_TYPES (File_type file))
              then
                ret (NextResponse_json
                       (failure (lit "Desteklenmeyen dosya tipi: "
                                 ++ File_type file)
                          (Some (lit "Desteklenen formatlar: PDF, CSV, DOC, DOCX, PNG, JPEG")))
                       400)
              else if MAX_FILE_SIZE <? File_size file then
                ret (NextResponse_json
                       (failure (lit "Dosya boyutu çok büyük")
                          (Some (lit "Maksimum dosya boyutu: "
                                 ++ decimal (MAX_FILE_SIZE / 1024 / 1024)
                                 ++ lit "MB. Yüklenen dosya: "
                                 ++ toFixed2_MiB (File_size file)
                                 ++ lit "MB")))
                       400)
              else POST_step1 w file walletAddress
          end
      end
  end.

(** [error.message?.includes(p)]: [undefined], hence falsy, without a
    message. *)
Definition message_includes (e : JsError) (p : jsstring) : bool :=
  match message e with
  | Some m => includes m p
  | None => false
  end.

(** The outer [catch]. *)
Definition POST_catch (e : JsError) : M Response :=
  _ <- console_error e ;;
  let '(errorMessage, errorDetails) :=
    if message_includes e (lit "API key") then
      (lit "API key hatası", Some (lit "Gemini API key geçersiz veya eksik"))
    else if message_includes e (lit "quota") then
      (lit "API kotası aşıldı", Some (lit "Günlük API kullanım limiti doldu"))
    else if message_includes e (lit "invalid") then
      (lit "Geçersiz dosya formatı",
       Some (lit "Dosya formatı okunamadı veya bozuk"))
    else (lit "Analiz sırasında bir hata oluştu", message e) in
  ret (NextResponse_json (failure errorMessage errorDetails) 500).

Definition POST (w : World) : M Response :=
  try_catch (POST_try w) POST_catch.

(** *** [GET] *)

Record ReadyPayload : Type := {
  ready_status : jsstring;
  ready_message : jsstring;
  supportedFileTypes : list jsstring;
  maxFileSize : jsstring;
  responseFormat : jsstring
}.

Definition GET : N * ReadyPayload :=
  (200,
   {| ready_status := lit "ready";
      ready_message := lit "Health analysis API is ready (JSON format only)";
      supportedFileTypes := ALLOWED_FILE_TYPES;
      maxFileSize := decimal (MAX_FILE_SIZE / 1024 / 1024) ++ lit "MB";
      responseFormat := lit "JSON" |}).

End Route.

(** ** A reference runtime

    A concrete [Runtime] to run the handler on. Its Numbers are the
    integers of magnitude at most 2^53, which the engine represents exactly
    and prints as plain digits; [JSON_parse] follows the JSON grammar and
    rejects a text whose numbers fall outside that range or carry a
    fraction or an exponent. *)
Module Reference.

Definition is_json_ws (c : char16) : bool :=
  (c =? 9) || (c =? 10) || (c =? 13) || (c =? 32).

Fixpoint skip_ws (s : jsstring) : jsstring :=
  match s with
  | c :: s' => if is_json_ws c then skip_ws s' else s
  | [] => []
  end.

Definition is_digit (c : char16) : bool := (48 <=? c) && (c <=? 57).

Definition hex_value (c : char16) : option N :=
  if is_digit c then Some (c - 48)
  else if (65 <=? c) && (c <=? 70) then Some (c - 55)
  else if (97 <=? c) && (c <=? 102) then Some (c - 87)
  else None.

(** The digits at the start of [s], as a number, and the rest. *)
Fixpoint read_digits (s : jsstring) (acc : N) : N * jsstring :=
  match s with
  | c :: s' => if is_digit c then read_digits s' (acc * 10 + (c - 48))
               else (acc, s)
  | [] => (acc, [])
  end.

Definition starts_fraction_or_exponent (s : jsstring) : bool :=
  match s with
  | c :: _ => (c =? 46) || (c =? 69) || (c =? 101)
  | [] => false
  end.

(** An optional minus sign, then a zero or digits without a leading
    zero; at most 2^53 in magnitude. *)
Definition parse_number (s : jsstring) : option (Z * jsstring) :=
  let '(negative, s1) :=
    match s with
    | 45 :: r => (true, r)
    | _ => (false, s)
    end in
  match s1 with
  | c :: r =>
      if negb (is_digit c) then None
      else
        let '(n, rest) :=
          if c =? 48 then (0, r) else read_digits s1 0 in
        if match rest with d :: _ => is_digit d | [] => false end then None
        else if starts_fraction_or_exponent rest then None
        else if 9007199254740992 <? n then None
        else Some (if negative then Z.opp (Z.of_N n) else Z.of_N n, rest)
  | [] => None
  end.

(** The characters of a string literal after its opening quote, up to the
    closing one. *)
Fixpoint parse_string (s : jsstring) : option (jsstring * jsstring) :=
  match s with
  | [] => None
  | 34 :: rest => Some ([], rest)
  | 92 :: e :: rest =>
      let continue (c : char16) (r : jsstring) (k : jsstring -> option (jsstring * jsstring)) :=
        match k r with
        | Some (str, r') => Some (c :: str, r')
        | None => None
        end in
      match e, rest with
      | 34, _ => continue 34 rest parse_string
      | 92, _ => continue 92 rest parse_string
      | 47, _ => continue 47 rest parse_string
      | 98, _ => continue 8 rest parse_string
      | 102, _ => continue 12 rest parse_string
      | 110, _ => continue 10 rest parse_string
      | 114, _ => continue 13 rest parse_string
      | 116, _ => continue 9 rest parse_string
      | 117, h1 :: h2 :: h3 :: h4 :: rest' =>
          match hex_value h1, hex_value h2, hex_value h3, hex_value h4 with
          | Some a, Some b, Some c, Some d =>
              continue (((a * 16 + b) * 16 + c) * 16 + d) rest' parse_string
          | _, _, _, _ => None
          end
      | _, _ => None
      end
  | c :: rest =>
      if c <? 32 then None
      else
        match parse_string rest with
        | Some (str, r') => Some (c :: str, r')
        | None => None
        end
  end.

(** A later member of the same name replaces the value of the earlier
    one, in its place. *)
Fixpoint set_property (k : jsstring) (v : Value Z)
  (props : list (jsstring * Value Z)) : list (jsstring * Value Z) :=
  match props with
  | [] => [(k, v)]
  | (k', v') :: props' =>
      if jsstring_eqb k' k then (k', v) :: props'
      else (k', v') :: set_property k v props'
  end.

Fixpoint parse_value (fuel : nat) (s : jsstring)
  : option (Value Z * jsstring) :=
  match fuel with
  | O => None
  | S f =>
      match skip_ws s with
      | 110 :: r =>
          option_map (fun r' => (VNull, r')) (strip_prefix (lit "ull") r)
      | 116 :: r =>
          option_map (fun r' => (VBoolean true, r'))
            (strip_prefix (lit "rue") r)
      | 102 :: r =>
          option_map (fun r' => (VBoolean false, r'))
            (strip_prefix (lit "alse") r)
      | 34 :: r =>
          option_map (fun '(str, r') => (VString str, r')) (parse_string r)
      | 91 :: r =>
          match skip_ws r with
          | 93 :: r' => Some (VArray [], r')
          | _ =>
              option_map (fun '(vs, r') => (VArray vs, r'))
                (parse_elements f r)
          end
      | 123 :: r =>
          match skip_ws r with
          | 125 :: r' => Some (VObject [], r')
          | _ =>
              option_map (fun '(ps, r') => (VObject ps, r'))
                (parse_members f r [])
          end
      | s' =>
          option_map (fun '(z, r') => (VNumber z, r')) (parse_number s')
      end
  end

with parse_elements (fuel : nat) (s : jsstring)
  : option (list (Value Z) * jsstring) :=
  match fuel with
  | O => None
  | S f =>
      match parse_value f s with
      | None => None
      | Some (v, r) =>
          match skip_ws r with
          | 44 :: r' =>
              option_map (fun '(vs, r'') => (v :: vs, r''))
                (parse_elements f r')
          | 93 :: r' => Some ([v], r')
          | _ => None
          end
      end
  end

with parse_members (fuel : nat) (s : jsstring)
  (acc : list (jsstring * Value Z))
  : option (list (jsstring * Value Z) * jsstring) :=
  match fuel with
  | O => None
  | S f =>
      match skip_ws s with
      | 34 :: r =>
          match parse_string r with
          | None => None
          | Some (k, r1) =>
              match skip_ws r1 with
              | 58 :: r2 =>
                  match parse_value f r2 with
                  | None => None
                  | Some (v, r3) =>
                      let acc' := set_property k v acc in
                      match skip_ws r3 with
                      | 44 :: r4 => parse_members f r4 acc'
                      | 125 :: r4 => Some (acc', r4)
                      | _ => None
                      end
                  end
              | _ => None
              end
          end
      | _ => None
      end
  end.

(** [JSON.parse]: one value, then nothing but white space. *)
Definition parse (s : jsstring) : option (Value Z) :=
  match parse_value (2 * length s + 2) s with
  | Some (v, rest) =>
      match skip_ws rest with
      | [] => Some v
      | _ => None
      end
  | None => None
  end.

Definition Z_to_string (z : Z) : jsstring :=
  if (z <? 0)%Z then lit "-" ++ decimal (Z.abs_N z) else decimal (Z.abs_N z).

Definition runtime : Runtime :=
  {| Num := Z;
     Number_of_N := Z.of_N;
     NumberToString := Z_to_string;
     NumberToBoolean := fun z => negb (z =? 0)%Z;
     JSON_parse := parse |}.

(** A JSON text written with apostrophes in place of the double quotes. *)
Definition json_text (s : string) : jsstring :=
  map (fun c => if c =? 39 then 34 else c) (lit s).

End Reference.


(** ** The vocabulary of the properties *)

(** Three backquotes. *)
Definition FENCE : jsstring := [BACKQUOTE; BACKQUOTE; BACKQUOTE].

(** A reply wrapped in a Markdown code fence: the opening fence, with or
    without the [json] tag, on a line of its own, the text, and the closing
    fence on the next line. *)
Definition fenced (tagged : bool) (text : jsstring) : jsstring :=
  FENCE ++ (if tagged then lit "json" else []) ++ LF :: text ++ LF :: FENCE.

Section Vocabulary.
Context {RT : Runtime}.

(** The form of the request carries [file] and [walletAddress]. *)
Definition form_has (w : World) (file : File) (walletAddress : jsstring)
  : Prop :=
  request_formData w
  = Normal {| FormData_file := Some file;
              FormData_walletAddress := Some walletAddress |}.

(** The handler reaches STEP 1 with [file] and [walletAddress]: the
    database connection is open, and the four checks of the upload
    pass. *)
Definition accepted_upload (w : World) (file : File)
  (walletAddress : jsstring) : Prop :=
  (exists u, dbConnect_result w = Normal u)
  /\ form_has w file walletAddress
  /\ walletAddress <> []
  /\ Array_includes ALLOWED_FILE_TYPES (File_type file) = true
  /\ File_size file <= MAX_FILE_SIZE.

(** The classifier's raw output for [file] is [checkText], obtained by
    the request [part]. *)
Definition classifier_output (w : World) (file : File) (part : InlineData)
  (checkText : jsstring) : Prop :=
  exists bytes checkResult,
    File_arrayBuffer file tt = Normal bytes
    /\ part = {| data := base64 bytes; mimeType := File_type file |}
    /\ model_generateContent w HEALTH_DOCUMENT_CHECK_PROMPT part
       = Normal checkResult
    /\ response_text checkResult = Normal checkText.

(** The verdict read from [checkText] says this is a health document. *)
Definition positive_verdict (checkText : jsstring) : Prop :=
  exists v,
    Get (parse_healthCheck checkText) (lit "isHealthDocument") = Normal v
    /\ ToBoolean v = true.

(** The extractor's raw output for the request [part] is
    [analysisText]. *)
Definition extractor_output (w : World) (part : InlineData)
  (analysisText : jsstring) : Prop :=
  exists result,
    model_generateContent w JSON_ANALYSIS_PROMPT part = Normal result
    /\ response_text result = Normal analysisText.

(** The upload validation as a function of the form alone: the accepted
    file and identifier, or [None] when the form cannot be read or one of
    the four checks fails. *)
Definition validated (w : World) : option (File * jsstring) :=
  match request_formData w with
  | Normal {| FormData_file := Some file;
              FormData_walletAddress := Some walletAddress |} =>
      if negb (jsstring_eqb walletAddress [])
         && Array_includes ALLOWED_FILE_TYPES (File_type file)
         && (File_size file <=? MAX_FILE_SIZE)
      then Some (file, walletAddress)
      else None
  | _ => None
  end.

(** Calls that leave the process, as opposed to the log line of the
    outer [catch]. *)
Definition is_collaborator_call (ev : Event) : bool :=
  match ev with
  | ConsoleError _ => false
  | _ => true
  end.

(** Calls to the model, the persistence store or the reward service. *)
Definition is_service_call (ev : Event) : bool :=
  match ev with
  | CallGenerateContent _ _ | CallCreate _ | CallReward _ => true
  | CallDbConnect | ConsoleError _ => false
  end.

Definition is_extraction_call (ev : Event) : bool :=
  match ev with
  | CallGenerateContent JSON_ANALYSIS_PROMPT _ => true
  | _ => false
  end.

(** [p] occurs in the message of [e]. *)
Definition message_contains (e : JsError) (p : jsstring) : Prop :=
  exists m before after, message e = Some m /\ m = before ++ p ++ after.

(** The response and the final state of a run. *)
Definition response_of (r : Completion Response * State)
  : option Response :=
  match fst r with
  | Normal resp => Some resp
  | Throw _ => None
  end.

Definition status_of (r : Completion Response * State) : option N :=
  option_map status (response_of r).

Definition details_of (r : Completion Response * State)
  : option jsstring :=
  match response_of r with
  | Some resp => details (body resp)
  | None => None
  end.

Definition error_of (r : Completion Response * State) : option jsstring :=
  match response_of r with
  | Some resp => error (body resp)
  | None => None
  end.

End Vocabulary.

(** ** Sample requests, run with the reference runtime *)
Module Samples.
Import Reference.

#[local] Existing Instance runtime.

Definition st0 : State := {| calls := []; collection := [] |}.

(** A small PDF upload. *)
Definition report : File :=
  {| File_name := lit "report.pdf";
     File_type := lit "application/pdf";
     File_size := 8;
     File_arrayBuffer := fun _ => Normal (lit "%PDF-1.4") |}.

(** An upload of [size] bytes, all zero. *)
Definition upload (size : N) : File :=
  {| File_name := lit "scan.png";
     File_type := lit "image/png";
     File_size := size;
     File_arrayBuffer := fun _ => Normal (repeat 0 (N.to_nat size)) |}.

Definition wallet : jsstring := lit "0xA11CE".

Definition form (file : File) : Completion FormData :=
  Normal {| FormData_file := Some file;
            FormData_walletAddress := Some wallet |}.

Definition reward : Completion TokenReward :=
  Normal {| earnedTokens := 10%Z; totalTokens := 30%Z; isNewUser := false |}.

(** A world whose model answers [check] to the health check and
    [analysis] to the detailed analysis. *)
Definition world (db : Completion unit) (fd : Completion FormData)
  (check analysis : jsstring) (created : Completion unit)
  (rewarded : Completion TokenReward) : World :=
  {| dbConnect_result := db;
     request_formData := fd;
     model_generateContent := fun prompt _ =>
       Normal {| response_text :=
                   Normal (match prompt with
                           | HEALTH_DOCUMENT_CHECK_PROMPT => check
                           | JSON_ANALYSIS_PROMPT => analysis
                           end) |};
     HealthAnalysis_create_result := fun _ => created;
     rewardUserForAnalysis_result := fun _ => rewarded |}.

Definition positive_reply : jsstring :=
  json_text "{'isHealthDocument': true, 'confidence': 91, 'documentType': 'Blood test', 'reason': 'Lab values'}".

Definition negative_reply : jsstring :=
  json_text "{'isHealthDocument': false, 'confidence': 97, 'documentType': 'Invoice', 'reason': 'A bill'}".

(** A negative verdict whose [documentType] is an object with a property
    named [toString]. *)
Definition odd_negative_reply : jsstring :=
  json_text "{'isHealthDocument': false, 'confidence': 97, 'documentType': {'toString': 1}, 'reason': 'A bill'}".

Definition analysis_reply : jsstring :=
  json_text "{'title': 'Blood test', 'documentType': 'Blood Test', 'findings': [], 'confidence': 85}".

Definition prose : jsstring := lit "Sorry, I cannot read this file.".

Definition db_down : JsError :=
  {| message := Some (lit "connect ECONNREFUSED 127.0.0.1:27017") |}.

Definition quota_error : JsError :=
  {| message := Some (lit "429 quota exceeded for API key") |}.

Definition ledger_down : JsError :=
  {| message := Some (lit "reward ledger unavailable") |}.

End Samples.

(** ** The outcomes of a request *)

Section Outcomes.
Context {RT : Runtime}.

(** The document the handler inserts for [file], [walletAddress] and the
    parsed analysis. *)
Definition analysis_doc (file : File) (walletAddress : jsstring)
  (analysisData : JSON) : AnalysisDoc :=
  {| doc_walletAddress := walletAddress;
     doc_fileName := File_name file;
     doc_fileSize := File_size file;
     doc_fileType := File_type file;
     doc_format := lit "json";
     doc_analysisData := analysisData |}.

(** The success envelope for [file], the parsed analysis and the outcome
    of the reward. *)
Definition success_envelope (file : File) (analysisData : JSON)
  (r : TokenReward) : HealthAnalysisResponse :=
  {| success := true;
     analysis := Some analysisData;
     fileName := Some (File_name file);
     fileSize := Some (File_size file);
     fileType := Some (File_type file);
     error := None;
     details := None;
     tokenReward :=
       Some {| earned := earnedTokens r;
               total := totalTokens r;
               view_isNewUser := isNewUser r |} |}.

(** The calls of a request that runs to the end, in their order. *)
Definition request_calls (part : InlineData) (doc : AnalysisDoc)
  (walletAddress : jsstring) : list Event :=
  [ CallDbConnect;
    CallGenerateContent HEALTH_DOCUMENT_CHECK_PROMPT part;
    CallGenerateContent JSON_ANALYSIS_PROMPT part;
    CallCreate doc;
    CallReward walletAddress ].



(** The state after a resolved insert of [doc]. *)
Definition store_doc (doc : AnalysisDoc) (st : State) : State :=
  {| calls := calls st; collection := collection st ++ [doc] |}.

(** The paths of STEP 2 run under the outer [catch], from state [st]; [sA]
    is the state once the extraction call is made. *)
Inductive Step2Outcome (w : World) (file : File) (walletAddress : jsstring)
  (part : InlineData) (st : State) : Completion Response * State -> Prop :=
| S2_model_error e :
    (model_generateContent w JSON_ANALYSIS_PROMPT part = Throw e
     \/ exists result,
          model_generateContent w JSON_ANALYSIS_PROMPT part = Normal result
          /\ response_text result = Throw e) ->
    Step2Outcome w file walletAddress part st
      (POST_catch e
         (record_call (CallGenerateContent JSON_ANALYSIS_PROMPT part) st))
| S2_parse_failure analysisText :
    extractor_output w part analysisText ->
    JSON_parse (clean analysisText) = None ->
    Step2Outcome w file walletAddress part st
      (Normal
         (NextResponse_json
            (failure (lit "Failed to parse AI analysis")
               (Some (lit "The AI returned an invalid response format. Raw response: "
                      ++ substring analysisText 0 500 ++ lit "...")))
            500),
       record_call (CallGenerateContent JSON_ANALYSIS_PROMPT part) st)
| S2_create_error analysisText parsedAnalysis e :
    extractor_output w part analysisText ->
    JSON_parse (clean analysisText) = Some parsedAnalysis ->
    HealthAnalysis_create_result w
      (analysis_doc file walletAddress parsedAnalysis) = Throw e ->
    Step2Outcome w file walletAddress part st
      (POST_catch e
         (record_call
            (CallCreate (analysis_doc file walletAddress parsedAnalysis))
            (record_call (CallGenerateContent JSON_ANALYSIS_PROMPT part) st)))
| S2_reward_error analysisText parsedAnalysis u e :
    extractor_output w part analysisText ->
    JSON_parse (clean analysisText) = Some parsedAnalysis ->
    HealthAnalysis_create_result w
      (analysis_doc file walletAddress parsedAnalysis) = Normal u ->
    rewardUserForAnalysis_result w walletAddress = Throw e ->
    Step2Outcome w file walletAddress part st
      (POST_catch e
         (record_call (CallReward walletAddress)
            (store_doc (analysis_doc file walletAddress parsedAnalysis)
               (record_call
                  (CallCreate (analysis_doc file walletAddress parsedAnalysis))
                  (record_call
                     (CallGenerateContent JSON_ANALYSIS_PROMPT part) st)))))
| S2_success analysisText parsedAnalysis u r :
    extractor_output w part analysisText ->
    JSON_parse (clean analysisText) = Some parsedAnalysis ->
    HealthAnalysis_create_result w
      (analysis_doc file walletAddress parsedAnalysis) = Normal u ->
    rewardUserForAnalysis_result w walletAddress = Normal r ->
    Step2Outcome w file walletAddress part st
      (Normal (NextResponse_json (success_envelope file parsedAnalysis r) 200),
       record_call (CallReward walletAddress)
         (store_doc (analysis_doc file walletAddress parsedAnalysis)
            (record_call
               (CallCreate (analysis_doc file walletAddress parsedAnalysis))
               (record_call
                  (CallGenerateContent JSON_ANALYSIS_PROMPT part) st)))).

(** The paths from the parse of the health check on. *)
Inductive HealthOutcome (w : World) (file : File) (walletAddress : jsstring)
  (part : InlineData) (checkText : jsstring) (st : State)
  : Completion Response * State -> Prop :=
| H_verdict_error e :
    Get (parse_healthCheck checkText) (lit "isHealthDocument") = Throw e ->
    HealthOutcome w file walletAddress part checkText st (POST_catch e st)
| H_rejected v sT sC sR :
    Get (parse_healthCheck checkText) (lit "isHealthDocument") = Normal v ->
    ToBoolean v = false ->
    (exists d, Get (parse_healthCheck checkText) (lit "documentType")
               = Normal d /\ ToString_opt d = Normal sT) ->
    (exists c, Get (parse_healthCheck checkText) (lit "confidence")
               = Normal c /\ ToString_opt c = Normal sC) ->
    (exists r, Get (parse_healthCheck checkText) (lit "reason")
               = Normal r /\ ToString_opt r = Normal sR) ->
    HealthOutcome w file walletAddress part checkText st
      (Normal
         (NextResponse_json
            (failure (lit "This document is not health-related")
               (Some (not_health_details sT sC sR)))
            400),
       st)
| H_conversion_error v e :
    Get (parse_healthCheck checkText) (lit "isHealthDocument") = Normal v ->
    ToBoolean v = false ->
    HealthOutcome w file walletAddress part checkText st (POST_catch e st)
| H_positive r :
    positive_verdict checkText ->
    Step2Outcome w file walletAddress part st r ->
    HealthOutcome w file walletAddress part checkText st r.

(** The paths of STEP 1 for an accepted upload. *)
Inductive Step1Outcome (w : World) (file : File) (walletAddress : jsstring)
  (st : State) : Completion Response * State -> Prop :=
| S1_read_error e :
    File_arrayBuffer file tt = Throw e ->
    Step1Outcome w file walletAddress st (POST_catch e st)
| S1_model_error bytes e :
    File_arrayBuffer file tt = Normal bytes ->
    (let part := {| data := base64 bytes; mimeType := File_type file |} in
     model_generateContent w HEALTH_DOCUMENT_CHECK_PROMPT part = Throw e
     \/ exists result,
          model_generateContent w HEALTH_DOCUMENT_CHECK_PROMPT part
          = Normal result
          /\ response_text result = Throw e) ->
    Step1Outcome w file walletAddress st
      (POST_catch e
         (record_call
            (CallGenerateContent HEALTH_DOCUMENT_CHECK_PROMPT
               {| data := base64 bytes; mimeType := File_type file |})
            st))
| S1_classified part checkText r :
    classifier_output w file part checkText ->
    HealthOutcome w file walletAddress part checkText
      (record_call (CallGenerateContent HEALTH_DOCUMENT_CHECK_PROMPT part) st)
      r ->
    Step1Outcome w file walletAddress st r.

(** The paths of the whole handler. *)
Inductive PostOutcome (w : World) (st : State)
  : Completion Response * State -> Prop :=
| P_db_error e :
    dbConnect_result w = Throw e ->
    PostOutcome w st (POST_catch e (record_call CallDbConnect st))
| P_rejected resp :
    (exists u, dbConnect_result w = Normal u) ->
    validated w = None ->
    status resp = 400 ->
    success (body resp) = false ->
    PostOutcome w st (Normal resp, record_call CallDbConnect st)
| P_accepted file walletAddress r :
    accepted_upload w file walletAddress ->
    validated w = Some (file, walletAddress) ->
    Step1Outcome w file walletAddress (record_call CallDbConnect st) r ->
    PostOutcome w st r.

End Outcomes.

(** The characters of a base64 text: letters, digits, [+], [/] and the
    padding [=]. *)
Definition is_base64_char (c : char16) : bool :=
  ((65 <=? c) && (c <=? 90)) || ((97 <=? c) && (c <=? 122))
  || ((48 <=? c) && (c <=? 57)) || (c =? 43) || (c =? 47) || (c =? 61).

(** Nothing but white space, as [trim] sees it. *)
Definition all_space (s : jsstring) : bool := forallb is_space s.

(** * Properties *)

(** ** The global replace *)

Lemma replace_global_nil c0 p : replace_global c0 p [] = [].
Proof. now simp replace_global. Qed.

Lemma replace_global_cons c0 p c s :
  replace_global c0 p (c :: s) =
  match match_here c0 p (c :: s) with
  | Some rest => replace_global c0 p rest
  | None => c :: replace_global c0 p s
  end.
Proof.
  simp replace_global.
  destruct (inspect (match_here c0 p (c :: s))) as [[rest|] E];
    simp replace_global; now rewrite E.
Qed.

Arguments replace_global : simpl never.

Lemma char_eqb_eq a b : char_eqb a b = true <-> a = b.
Proof. apply N.eqb_eq. Qed.

Lemma char_eqb_neq a b : char_eqb a b = false <-> a <> b.
Proof. apply N.eqb_neq. Qed.

Lemma strip_prefix_app p s rest u :
  strip_prefix p s = Some rest -> strip_prefix p (s ++ u) = Some (rest ++ u).
Proof.
  revert s; induction p as [|a p IH]; intros s H; simpl in *.
  - now inversion H.
  - destruct s as [|b s]; [discriminate|]. simpl.
    destruct (char_eqb a b); [now apply IH | discriminate].
Qed.

(** A match cannot run over a character the literal does not contain. *)
Lemma strip_prefix_app_none p s x u :
  strip_prefix p s = None -> ~ In x p ->
  strip_prefix p (s ++ x :: u) = None.
Proof.
  revert s; induction p as [|a p IH]; intros s H Hx; simpl in *.
  - discriminate.
  - destruct s as [|b s]; simpl.
    + destruct (char_eqb a x) eqn:E; [|reflexivity].
      apply char_eqb_eq in E. tauto.
    + destruct (char_eqb a b); [|reflexivity]. apply IH; tauto.
Qed.

Lemma skip_LF_app rest u : rest <> [] -> skip_LF (rest ++ u) = skip_LF rest ++ u.
Proof.
  destruct rest as [|c rest]; [congruence|]. intros _. simpl.
  now destruct (char_eqb c LF).
Qed.

Lemma replace_global_LF c0 p v :
  c0 <> LF -> replace_global c0 p (LF :: v) = LF :: replace_global c0 p v.
Proof.
  intros H. rewrite replace_global_cons. unfold match_here. simpl.
  apply char_eqb_neq in H. now rewrite H.
Qed.

(** Replacing in [t ++ LF :: v], for a literal without line feed: the
    matches inside [t] are those of [t] alone, and the line feed is taken by
    the last of them exactly when that match ends [t]. *)
Lemma replace_global_app_LF c0 p v :
  ~ In LF (c0 :: p) ->
  forall t,
    replace_global c0 p (t ++ LF :: v)
    = replace_global c0 p t ++ LF :: replace_global c0 p v
    \/ replace_global c0 p (t ++ LF :: v)
       = replace_global c0 p t ++ replace_global c0 p v.
Proof.
  intros HLF t. remember (length t) as n eqn:Hn. revert t Hn.
  induction n as [n IH] using lt_wf_ind. intros [|c t] Hn.
  - left. rewrite replace_global_nil. simpl. apply replace_global_LF.
    simpl in HLF. intuition.
  - rewrite <- app_comm_cons, !replace_global_cons. unfold match_here.
    destruct (strip_prefix (c0 :: p) (c :: t)) as [rest|] eqn:E.
    + rewrite app_comm_cons, (strip_prefix_app _ _ _ _ E).
      destruct rest as [|r0 rest].
      * right. simpl. now rewrite replace_global_nil.
      * rewrite skip_LF_app by discriminate.
        apply (IH (length (skip_LF (r0 :: rest)))); [|reflexivity].
        subst n. apply strip_prefix_length in E.
        pose proof (skip_LF_length (r0 :: rest)). simpl in *. lia.
    + rewrite app_comm_cons, (strip_prefix_app_none _ _ _ _ E HLF).
      destruct (IH (length t)) with (t := t) as [H|H];
        [subst n; simpl; lia | reflexivity | | ];
        rewrite H; [left | right]; reflexivity.
Qed.

(** ** The two fence patterns *)

(** The opening fence followed by the [json] tag and a line feed is one
    match of the first pattern. *)
Lemma replace_json_fence_open t :
  replace_json_fence (FENCE ++ lit "json" ++ LF :: t) = replace_json_fence t.
Proof.
  unfold replace_json_fence. change (FENCE ++ lit "json" ++ LF :: t)
    with (96 :: 96 :: 96 :: 106 :: 115 :: 111 :: 110 :: LF :: t).
  rewrite replace_global_cons. reflexivity.
Qed.

(** An untagged opening fence is no match of the first pattern. *)
Lemma replace_json_fence_plain_open t :
  replace_json_fence (FENCE ++ LF :: t) = FENCE ++ LF :: replace_json_fence t.
Proof.
  unfold replace_json_fence.
  change (FENCE ++ LF :: t) with (96 :: 96 :: 96 :: LF :: t).
  now rewrite !replace_global_cons.
Qed.

Lemma replace_fence_open t :
  replace_fence (FENCE ++ LF :: t) = replace_fence t.
Proof.
  unfold replace_fence.
  change (FENCE ++ LF :: t) with (96 :: 96 :: 96 :: LF :: t).
  now rewrite replace_global_cons.
Qed.

Lemma replace_json_fence_close t :
  replace_json_fence (t ++ LF :: FENCE) = replace_json_fence t ++ LF :: FENCE
  \/ replace_json_fence (t ++ LF :: FENCE) = replace_json_fence t ++ FENCE.
Proof.
  unfold replace_json_fence.
  assert (HF : replace_global BACKQUOTE (lit "``json") FENCE = FENCE)
    by reflexivity.
  assert (HLF : ~ In LF (BACKQUOTE :: lit "``json"))
    by (vm_compute; intuition discriminate).
  destruct (replace_global_app_LF _ _ FENCE HLF t) as [H|H];
    rewrite HF in H; auto.
Qed.

Lemma replace_fence_close_LF x :
  replace_fence (x ++ LF :: FENCE) = replace_fence x ++ [LF]
  \/ replace_fence (x ++ LF :: FENCE) = replace_fence x.
Proof.
  unfold replace_fence.
  assert (HF : replace_global BACKQUOTE (lit "``") FENCE = []) by reflexivity.
  assert (HLF : ~ In LF (BACKQUOTE :: lit "``"))
    by (vm_compute; intuition discriminate).
  destruct (replace_global_app_LF _ _ FENCE HLF x) as [H|H];
    rewrite HF, ?app_nil_r in H; auto.
Qed.

Lemma strip_prefix_cons_ne a p b s :
  a <> b -> strip_prefix (a :: p) (b :: s) = None.
Proof. intros H. simpl. apply char_eqb_neq in H. now rewrite H. Qed.

Lemma strip_prefix_cons_eq a p s :
  strip_prefix (a :: p) (a :: s) = strip_prefix p s.
Proof.
  simpl. now replace (char_eqb a a) with true by (symmetry; now apply char_eqb_eq).
Qed.

(** Unfold the scan by one step on both sides of an equation. *)
Ltac replace_step :=
  rewrite <- ?app_comm_cons;
  match goal with
  | |- replace_global ?a ?p (?c :: ?l) = replace_global _ _ (?c' :: ?l') =>
      rewrite (replace_global_cons a p c l), (replace_global_cons a p c' l');
      unfold match_here
  end.

(** A closing fence right after the text: whatever backquotes end the text,
    three of the run are removed. *)
Lemma replace_fence_close x : replace_fence (x ++ FENCE) = replace_fence x.
Proof.
  unfold replace_fence. change (lit "``") with [BACKQUOTE; BACKQUOTE].
  remember (length x) as n eqn:Hn. revert x Hn.
  induction n as [n IH] using lt_wf_ind. intros x Hn.
  assert (step : forall c y, (length y < n)%nat ->
            c :: replace_global BACKQUOTE [BACKQUOTE; BACKQUOTE] (y ++ FENCE)
            = c :: replace_global BACKQUOTE [BACKQUOTE; BACKQUOTE] y).
  { intros c y Hy. f_equal. now apply (IH (length y)). }
  destruct x as [|c x]; [reflexivity|]. simpl in Hn.
  destruct (N.eq_dec BACKQUOTE c) as [<-|Hc].
  2:{ replace_step. rewrite !strip_prefix_cons_ne by exact Hc.
      apply step. lia. }
  destruct x as [|d x]; [reflexivity|]. simpl in Hn.
  destruct (N.eq_dec BACKQUOTE d) as [<-|Hd].
  2:{ replace_step.
      rewrite !strip_prefix_cons_eq, !strip_prefix_cons_ne by exact Hd.
      apply (step _ (d :: x)). simpl. lia. }
  destruct x as [|e x]; [reflexivity|]. simpl in Hn.
  destruct (N.eq_dec BACKQUOTE e) as [<-|He].
  2:{ replace_step.
      rewrite !strip_prefix_cons_eq, !strip_prefix_cons_ne by exact He.
      apply (step _ (BACKQUOTE :: e :: x)). simpl. lia. }
  replace_step. rewrite !strip_prefix_cons_eq. cbn [strip_prefix].
  destruct x as [|f x]; [reflexivity|].
  rewrite skip_LF_app by discriminate.
  apply (IH (length (skip_LF (f :: x)))); [|reflexivity].
  pose proof (skip_LF_length (f :: x)). simpl in *. lia.
Qed.

(** ** [trim] *)

Lemma trimStart_app_space y c :
  is_space c = true ->
  trimStart (y ++ [c]) = match trimStart y with
                         | [] => []
                         | r => r ++ [c]
                         end.
Proof.
  intros Hc. induction y as [|a y IH]; simpl.
  - now rewrite Hc.
  - destruct (is_space a); [exact IH | reflexivity].
Qed.

Lemma trimEnd_app_space r c : is_space c = true -> trimEnd (r ++ [c]) = trimEnd r.
Proof.
  intros Hc. unfold trimEnd. rewrite rev_app_distr. simpl. now rewrite Hc.
Qed.

Lemma trim_app_space y c : is_space c = true -> trim (y ++ [c]) = trim y.
Proof.
  intros Hc. unfold trim. rewrite (trimStart_app_space _ _ Hc).
  destruct (trimStart y) as [|a r]; [reflexivity|].
  now rewrite (trimEnd_app_space (a :: r) c Hc).
Qed.

(** ** Fenced replies *)

Lemma clean_fenced tagged text : clean (fenced tagged text) = clean text.
Proof.
  unfold clean, fenced.
  assert (H : trim (replace_fence (replace_json_fence (text ++ LF :: FENCE)))
              = trim (replace_fence (replace_json_fence text))).
  { destruct (replace_json_fence_close text) as [E|E]; rewrite E.
    - destruct (replace_fence_close_LF (replace_json_fence text)) as [F|F];
        rewrite F; [now apply trim_app_space | reflexivity].
    - now rewrite replace_fence_close. }
  destruct tagged.
  - now rewrite replace_json_fence_open.
  - simpl app at 2.
    now rewrite replace_json_fence_plain_open, replace_fence_open.
Qed.

(** ** [includes] and [substring] *)

Lemma strip_prefix_spec p s rest :
  strip_prefix p s = Some rest <-> s = p ++ rest.
Proof.
  revert s; induction p as [|a p IH]; intros s; simpl.
  - split; [now intros [= ->] | now intros ->].
  - destruct s as [|b s]; [split; discriminate|].
    destruct (char_eqb a b) eqn:E.
    + apply char_eqb_eq in E. subst b. rewrite IH.
      split; [now intros -> | now intros [= ->]].
    + apply char_eqb_neq in E. split; [discriminate | intros [= -> _]; tauto].
Qed.

Lemma includes_unfold s p :
  includes s p = match strip_prefix p s with
                 | Some _ => true
                 | None => match s with
                           | [] => false
                           | _ :: s' => includes s' p
                           end
                 end.
Proof. now destruct s. Qed.

(** [includes] decides the occurrence of [p] somewhere in [s]. *)
Lemma includes_spec s p :
  includes s p = true <-> exists before after, s = before ++ p ++ after.
Proof.
  split.
  - induction s as [|c s IH]; rewrite includes_unfold;
      destruct (strip_prefix p _) as [rest|] eqn:E; try discriminate.
    + intros _. apply strip_prefix_spec in E. now exists [], rest.
    + intros _. apply strip_prefix_spec in E. now exists [], rest.
    + intros H. destruct (IH H) as (b & a & ->). now exists (c :: b), a.
  - intros (b & a & ->). induction b as [|c b IH]; rewrite includes_unfold.
    + simpl. now rewrite (proj2 (strip_prefix_spec p (p ++ a) a) eq_refl).
    + destruct (strip_prefix p _); [reflexivity | exact IH].
Qed.

Lemma substring_from_0 s n : substring s 0 n = firstn n s.
Proof.
  unfold substring. rewrite !Nat.min_0_l, Nat.max_0_l, Nat.sub_0_r. simpl.
  destruct (Nat.le_ge_cases n (length s)) as [H|H].
  - now rewrite Nat.min_l.
  - rewrite Nat.min_r by exact H. now rewrite !firstn_all2.
Qed.

(** ** Decimal digits and [toFixed(2)] *)

Lemma digits_fuel_acc f : forall n acc,
  digits_fuel f n acc = digits_fuel f n [] ++ acc.
Proof.
  induction f as [|f IH]; intros n acc; simpl; [reflexivity|].
  destruct (n <? 10); [reflexivity|].
  rewrite (IH _ (_ :: acc)), (IH _ [_]), <- app_assoc. reflexivity.
Qed.

(** More fuel than bits changes nothing. *)
Lemma digits_fuel_enough f : forall g n acc,
  (1 <= f <= g)%nat -> n < 2 ^ N.of_nat f ->
  digits_fuel g n acc = digits_fuel f n acc.
Proof.
  induction f as [|f IH]; intros g n acc [Hf Hg] Hn; [lia|].
  destruct g as [|g]; [lia|]. simpl.
  destruct (n <? 10) eqn:E; [reflexivity|]. apply N.ltb_ge in E.
  rewrite Nat2N.inj_succ, N.pow_succ_r' in Hn.
  assert (Hf3 : (1 <= f)%nat).
  { destruct f as [|f]; [simpl in Hn; lia | lia]. }
  apply IH; [lia|].
  apply N.Div0.div_lt_upper_bound. lia.
Qed.

Lemma decimal_small n : n < 10 -> decimal n = [48 + n].
Proof.
  intros H. unfold decimal. simpl. apply N.ltb_lt in H as H'. rewrite H'.
  now rewrite N.mod_small.
Qed.

Lemma decimal_step n :
  10 <= n -> decimal n = decimal (n / 10) ++ [48 + n mod 10].
Proof.
  intros H. unfold decimal at 1. simpl.
  assert (E : (n <? 10) = false) by now apply N.ltb_ge. rewrite E.
  rewrite digits_fuel_acc. f_equal. unfold decimal.
  assert (H10 : 0 < n / 10) by (apply N.div_str_pos; lia).
  assert (Hlog : N.log2 (n / 10) < N.log2 n).
  { apply N.log2_lt_pow2; [lia|].
    apply N.Div0.div_lt_upper_bound.
    destruct (N.log2_spec n ltac:(lia)) as [_ Hhi].
    rewrite N.pow_succ_r' in Hhi. lia. }
  apply digits_fuel_enough; [lia|].
  rewrite Nat2N.inj_succ, N2Nat.id.
  now apply N.log2_spec.
Qed.

Lemma decimal_not_nil n : decimal n <> [].
Proof.
  destruct (N.lt_ge_cases n 10) as [H|H].
  - now rewrite decimal_small.
  - rewrite decimal_step by exact H. now destruct (decimal (n / 10)).
Qed.

Lemma point_split (X : jsstring) (d1 d0 : char16) :
  X <> [] ->
  let m := pad_zeros 3 (X ++ [d1] ++ [d0]) in
  firstn (length m - 2) m ++ lit "." ++ skipn (length m - 2) m
  = X ++ lit "." ++ [d1; d0].
Proof.
  intros HX m. subst m. unfold pad_zeros.
  change ([d1] ++ [d0]) with [d1; d0].
  assert (Hlen : length (X ++ [d1; d0]) = (length X + 2)%nat)
    by (rewrite !length_app; simpl; lia).
  assert (H1 : (1 <= length X)%nat)
    by (destruct X; [congruence | simpl; lia]).
  rewrite Hlen. replace (3 - (length X + 2))%nat with 0%nat by lia.
  cbn [repeat app]. rewrite Hlen.
  replace (length X + 2 - 2)%nat with (length X + 0)%nat by lia.
  rewrite firstn_app_2, skipn_app, skipn_all2 by lia. simpl.
  replace (length X + 0 - length X)%nat with 0%nat by lia.
  now rewrite app_nil_r.
Qed.

(** The shape [toFixed(2)] gives its digits: the integer part, the point
    and the two digits of the hundredths. *)
Lemma toFixed2_MiB_shape size :
  let n := toFixed2_n size in
  toFixed2_MiB size
  = decimal (n / 100) ++ lit "." ++ [48 + n mod 100 / 10; 48 + n mod 10].
Proof.
  intros n. unfold toFixed2_MiB. fold n. generalize n. clear n size. intros n.
  assert (Hd1 : n / 10 mod 10 = n mod 100 / 10).
  { change 100 with (10 * 10). rewrite N.Div0.mod_mul_r.
    rewrite N.mul_comm, N.div_add by lia.
    rewrite (N.div_small (n mod 10)) by (apply N.mod_lt; lia). reflexivity. }
  assert (Hd2 : n / 10 / 10 = n / 100) by (now rewrite N.Div0.div_div).
  destruct (N.lt_ge_cases n 10) as [H|H].
  - rewrite decimal_small by exact H.
    rewrite (N.div_small n 100), (N.mod_small n 100), (N.div_small n 10),
      (N.mod_small n 10) by lia.
    reflexivity.
  - rewrite (decimal_step n H).
    destruct (N.lt_ge_cases (n / 10) 10) as [H'|H'].
    + rewrite decimal_small by exact H'.
      assert (n / 100 = 0) as -> by (rewrite <- Hd2; now apply N.div_small).
      rewrite <- Hd1, (N.mod_small (n / 10)) by exact H'. reflexivity.
    + rewrite (decimal_step _ H'), Hd1, Hd2, <- app_assoc.
      apply point_split, decimal_not_nil.
Qed.

(** [toFixed2_n size / 100] is the hundredth nearest to [size / 2^20], the
    upper one when two are as near. *)
Lemma toFixed2_n_nearest size :
  let n := toFixed2_n size in
  1048576 * n <= 100 * size + 524288 /\ 100 * size + 524288 < 1048576 * (n + 1).
Proof.
  intros n. subst n. unfold toFixed2_n.
  pose proof (N.div_mod' (200 * size + 1048576) 2097152) as E.
  pose proof (N.mod_lt (200 * size + 1048576) 2097152 ltac:(lia)) as L.
  set (q := (200 * size + 1048576) / 2097152) in *.
  set (r := (200 * size + 1048576) mod 2097152) in *.
  clearbody q r. lia.
Qed.

(** ** Running the handler *)

(** Case analysis on the innermost scrutinee left in the goal. *)
Ltac cases :=
  repeat match goal with
         | |- context [match ?x with _ => _ end] =>
             lazymatch x with
             | context [match _ with _ => _ end] => fail
             | _ => destruct x eqn:?; simpl
             end
         end.

Section Pipeline.
Context {RT : Runtime}.

(** The outer [catch] logs the error and answers 500. *)
Lemma POST_catch_state e st :
  snd (POST_catch e st) = record_call (ConsoleError e) st.
Proof.
  unfold POST_catch, bind, console_error, ret.
  now repeat destruct (message_includes _ _).
Qed.

Lemma POST_catch_status e st : status_of (POST_catch e st) = Some 500.
Proof.
  unfold POST_catch, bind, console_error, ret, status_of, response_of.
  now repeat destruct (message_includes _ _).
Qed.

Lemma POST_catch_success e st :
  option_map (fun r => success (body r)) (response_of (POST_catch e st))
  = Some false.
Proof.
  unfold POST_catch, bind, console_error, ret, response_of.
  now repeat destruct (message_includes _ _).
Qed.

Lemma message_includes_spec e p :
  message_includes e p = true <-> message_contains e p.
Proof.
  unfold message_includes, message_contains. destruct (message e) as [m|].
  - rewrite includes_spec. split.
    + intros (b & a & ->). now exists (b ++ p ++ a), b, a.
    + intros (m' & b & a & [= <-] & ->). now exists b, a.
  - split; [discriminate | intros (m & b & a & H & _); discriminate].
Qed.

Lemma message_includes_false e p :
  message_includes e p = false <-> ~ message_contains e p.
Proof.
  rewrite <- message_includes_spec. now destruct (message_includes e p).
Qed.

Lemma POST_try_accepted w st file walletAddress :
  accepted_upload w file walletAddress ->
  POST_try w st = POST_step1 w file walletAddress (record_call CallDbConnect st).
Proof.
  intros [[u Hdb] [Hform [Hwallet [Htype Hsize]]]].
  unfold POST_try, bind, dbConnect, form_has in *.
  rewrite Hdb, Hform. cbn [FormData_file FormData_walletAddress].
  destruct walletAddress as [|c wa]; [congruence|].
  rewrite Htype. cbn [negb].
  apply N.ltb_ge in Hsize. now rewrite Hsize.
Qed.

Lemma POST_step1_output w st file walletAddress part checkText :
  classifier_output w file part checkText ->
  POST_step1 w file walletAddress st
  = POST_health_check w file walletAddress part checkText
      (record_call (CallGenerateContent HEALTH_DOCUMENT_CHECK_PROMPT part) st).
Proof.
  intros (bytes & checkResult & Hbytes & -> & Hgen & Htext).
  unfold POST_step1, bind, lift, generateContent.
  now rewrite Hbytes, Hgen, Htext.
Qed.

Lemma POST_health_check_positive w st file walletAddress part checkText :
  positive_verdict checkText ->
  POST_health_check w file walletAddress part checkText st
  = POST_step2 w file walletAddress part st.
Proof.
  intros (v & Hget & Htrue).
  unfold POST_health_check, bind, lift. now rewrite Hget, Htrue.
Qed.

(** Up to the second call of the model, for an accepted upload with a
    positive verdict. *)
Lemma POST_reaches_step2 w st file walletAddress part checkText :
  accepted_upload w file walletAddress ->
  classifier_output w file part checkText ->
  positive_verdict checkText ->
  POST w st
  = try_catch (POST_step2 w file walletAddress part) POST_catch
      (record_call (CallGenerateContent HEALTH_DOCUMENT_CHECK_PROMPT part)
         (record_call CallDbConnect st)).
Proof.
  intros Ha Hc Hp. unfold POST, try_catch.
  now rewrite (POST_try_accepted _ _ _ _ Ha), (POST_step1_output _ _ _ _ _ _ Hc),
    (POST_health_check_positive _ _ _ _ _ _ Hp).
Qed.

(** STEP 2 starts with the extraction call, whatever follows. *)
Lemma step2_calls_extractor w st file walletAddress part :
  exists l,
    calls (snd (try_catch (POST_step2 w file walletAddress part) POST_catch st))
    = calls st ++ CallGenerateContent JSON_ANALYSIS_PROMPT part :: l.
Proof.
  unfold try_catch, POST_step2, bind, lift, generateContent, ret,
    HealthAnalysis_create, rewardUserForAnalysis, POST_catch, console_error,
    record_call.
  cases; repeat rewrite <- app_assoc; simpl; eexists; reflexivity.
Qed.

Lemma default_verdict_is_positive checkText :
  JSON_parse (clean checkText) = None -> positive_verdict checkText.
Proof.
  intros H. exists (Some (VBoolean true)). unfold parse_healthCheck.
  rewrite H. split; reflexivity.
Qed.

(** C1. When the classifier's raw output, cleaned of its fences, is not
    valid JSON, the verdict is the default one (a health document, with
    confidence 50, type "Unknown" and reason "Could not verify document
    type"), the request is not failed, and the handler goes on with the
    extraction stage: the rest of the run is STEP 2, and the extraction
    call is made. *)
Theorem classifier_parse_failure_defaults
  w st file walletAddress part checkText :
  accepted_upload w file walletAddress ->
  classifier_output w file part checkText ->
  JSON_parse (clean checkText) = None ->
  parse_healthCheck checkText
  = VObject
      [ (lit "isHealthDocument", VBoolean true);
        (lit "confidence", VNumber (Number_of_N 50));
        (lit "documentType", VString (lit "Unknown"));
        (lit "reason", VString (lit "Could not verify document type")) ]
  /\ POST w st
     = try_catch (POST_step2 w file walletAddress part) POST_catch
         (record_call (CallGenerateContent HEALTH_DOCUMENT_CHECK_PROMPT part)
            (record_call CallDbConnect st))
  /\ In (CallGenerateContent JSON_ANALYSIS_PROMPT part)
       (calls (snd (POST w st))).
Proof.
  intros Ha Hc Hparse.
  assert (Hrun := POST_reaches_step2 w st _ _ _ _ Ha Hc
                    (default_verdict_is_positive _ Hparse)).
  split; [|split].
  - unfold parse_healthCheck. now rewrite Hparse.
  - exact Hrun.
  - rewrite Hrun.
    destruct (step2_calls_extractor w
                (record_call (CallGenerateContent HEALTH_DOCUMENT_CHECK_PROMPT part)
                   (record_call CallDbConnect st))
                file walletAddress part) as [l Hl].
    rewrite Hl. apply in_or_app. right. now left.
Qed.

Lemma POST_reaches_health_check w st file walletAddress part checkText :
  accepted_upload w file walletAddress ->
  classifier_output w file part checkText ->
  POST w st
  = try_catch (POST_health_check w file walletAddress part checkText)
      POST_catch
      (record_call (CallGenerateContent HEALTH_DOCUMENT_CHECK_PROMPT part)
         (record_call CallDbConnect st)).
Proof.
  intros Ha Hc. unfold POST, try_catch.
  now rewrite (POST_try_accepted _ _ _ _ Ha), (POST_step1_output _ _ _ _ _ _ Hc).
Qed.

(** C2, as the handler has it. When the classifier's reply parses to an
    object whose [isHealthDocument] is [false], the request makes the
    database connection and the classification call and no further call
    to the model, the store or the reward service, and nothing is stored.
    When the verdict's [documentType], [confidence] and [reason] convert
    to strings, the response is the 400 envelope whose details embed the
    three strings; when one of the conversions throws, the response is a
    500 envelope. *)
Theorem negative_verdict_rejects
  w st file walletAddress part checkText props :
  accepted_upload w file walletAddress ->
  classifier_output w file part checkText ->
  JSON_parse (clean checkText) = Some (VObject props) ->
  own_property (lit "isHealthDocument") props = Some (VBoolean false) ->
  let documentType := ToString_opt (own_property (lit "documentType") props) in
  let confidence := ToString_opt (own_property (lit "confidence") props) in
  let reason := ToString_opt (own_property (lit "reason") props) in
  (exists l,
      calls (snd (POST w st))
      = calls st ++ CallDbConnect
          :: CallGenerateContent HEALTH_DOCUMENT_CHECK_PROMPT part :: l
      /\ existsb is_service_call l = false)
  /\ collection (snd (POST w st)) = collection st
  /\ (forall sT sC sR,
        documentType = Normal sT -> confidence = Normal sC ->
        reason = Normal sR ->
        response_of (POST w st)
        = Some (NextResponse_json
                  (failure (lit "This document is not health-related")
                     (Some (not_health_details sT sC sR)))
                  400))
  /\ ((exists e, documentType = Throw e \/ confidence = Throw e
                 \/ reason = Throw e) ->
      status_of (POST w st) = Some 500).
Proof.
  intros Ha Hc Hparse Hfalse documentType confidence reason.
  subst documentType confidence reason.
  rewrite (POST_reaches_health_check w st _ _ _ _ Ha Hc).
  unfold try_catch, POST_health_check, parse_healthCheck, bind, lift, ret.
  rewrite Hparse. cbn [Get]. rewrite Hfalse. cbn [ToBoolean negb].
  destruct (ToString_opt (own_property (lit "documentType") props)) as [sT|eT];
    [destruct (ToString_opt (own_property (lit "confidence") props)) as [sC|eC];
     [destruct (ToString_opt (own_property (lit "reason") props)) as [sR|eR]|]|];
    rewrite ?POST_catch_state, ?POST_catch_status;
    unfold record_call; cbn [fst snd calls collection];
    (split; [|split; [|split]]);
    try reflexivity;
    try (rewrite <- !app_assoc; simpl; eexists; split; reflexivity);
    try (intros ? ? ? ? ? ?; first [discriminate | congruence]);
    try (intros [e [H|[H|H]]]; discriminate).
intros ? ? ? [= <-] [= <-] [= <-]. reflexivity.
Qed.

(** C3. When the extractor's raw output, cleaned of its fences, is not
    valid JSON, the response is the 500 envelope "Failed to parse AI
    analysis"; its details end with the first 500 code units of the raw
    output, or all of it when shorter, followed by three dots. No verdict
    is substituted: nothing is stored and no call follows the extraction
    call. *)
Theorem extractor_parse_failure_is_500
  w st file walletAddress part checkText analysisText :
  accepted_upload w file walletAddress ->
  classifier_output w file part checkText ->
  positive_verdict checkText ->
  extractor_output w part analysisText ->
  JSON_parse (clean analysisText) = None ->
  let excerpt := firstn 500 analysisText in
  response_of (POST w st)
  = Some (NextResponse_json
            (failure (lit "Failed to parse AI analysis")
               (Some (lit "The AI returned an invalid response format. Raw response: "
                      ++ excerpt ++ lit "...")))
            500)
  /\ (length excerpt <= 500)%nat
  /\ (exists rest, analysisText = excerpt ++ rest)
  /\ collection (snd (POST w st)) = collection st
  /\ calls (snd (POST w st))
     = calls st
       ++ [ CallDbConnect;
            CallGenerateContent HEALTH_DOCUMENT_CHECK_PROMPT part;
            CallGenerateContent JSON_ANALYSIS_PROMPT part ].
Proof.
  intros Ha Hc Hp (result & Hgen & Htext) Hparse excerpt. subst excerpt.
  rewrite (POST_reaches_step2 w st _ _ _ _ Ha Hc Hp).
  unfold try_catch, POST_step2, bind, lift, ret, generateContent.
  rewrite Hgen, Htext, Hparse, substring_from_0.
  unfold response_of, record_call. cbn [fst snd calls collection].
  repeat split.
  - apply firstn_le_length.
  - exists (skipn 500 analysisText). symmetry. apply firstn_skipn.
  - now rewrite <- !app_assoc.
Qed.

(** C10. The insert is issued before the reward call, and nothing undoes
    it: when the insert resolves and the reward call then rejects, the
    response is a 500 failure envelope, the stored analyses are those of
    before plus the new document, and the calls of the request end with
    the insert, the reward call and the log line of the outer catch. *)
Theorem reward_failure_keeps_record
  w st file walletAddress part checkText analysisText parsedAnalysis e :
  accepted_upload w file walletAddress ->
  classifier_output w file part checkText ->
  positive_verdict checkText ->
  extractor_output w part analysisText ->
  JSON_parse (clean analysisText) = Some parsedAnalysis ->
  let doc :=
    {| doc_walletAddress := walletAddress;
       doc_fileName := File_name file;
       doc_fileSize := File_size file;
       doc_fileType := File_type file;
       doc_format := lit "json";
       doc_analysisData := parsedAnalysis |} in
  (exists u, HealthAnalysis_create_result w doc = Normal u) ->
  rewardUserForAnalysis_result w walletAddress = Throw e ->
  status_of (POST w st) = Some 500
  /\ option_map (fun r => success (body r)) (response_of (POST w st))
     = Some false
  /\ collection (snd (POST w st)) = collection st ++ [doc]
  /\ calls (snd (POST w st))
     = calls st
       ++ [ CallDbConnect;
            CallGenerateContent HEALTH_DOCUMENT_CHECK_PROMPT part;
            CallGenerateContent JSON_ANALYSIS_PROMPT part;
            CallCreate doc;
            CallReward walletAddress;
            ConsoleError e ].
Proof.
  intros Ha Hc Hp (result & Hgen & Htext) Hparse doc [u Hcreate] Hreward.
  rewrite (POST_reaches_step2 w st _ _ _ _ Ha Hc Hp).
  unfold try_catch, POST_step2, bind, lift, ret, generateContent,
    HealthAnalysis_create, rewardUserForAnalysis.
  rewrite Hgen, Htext, Hparse. fold doc. rewrite Hcreate, Hreward.
  rewrite POST_catch_status, POST_catch_success, POST_catch_state.
  unfold record_call. cbn [fst snd calls collection].
  repeat split. now rewrite <- !app_assoc.
Qed.

(** C7. An error that escapes the body of the handler is logged and
    answered with a 500 failure envelope. Its error and details follow
    the first rule that applies to the message: "API key" in it gives
    the credential error; otherwise "quota" gives the quota error;
    otherwise "invalid" gives the malformed-file error; otherwise the
    generic error, with the message itself as details. *)
Theorem uncaught_error_mapping w st e st' :
  POST_try w st = (Throw e, st') ->
  exists resp,
    POST w st = (Normal resp, record_call (ConsoleError e) st')
    /\ status resp = 500
    /\ success (body resp) = false
    /\ (message_contains e (lit "API key") ->
        error (body resp) = Some (lit "API key hatası")
        /\ details (body resp)
           = Some (lit "Gemini API key geçersiz veya eksik"))
    /\ (~ message_contains e (lit "API key") ->
        message_contains e (lit "quota") ->
        error (body resp) = Some (lit "API kotası aşıldı")
        /\ details (body resp)
           = Some (lit "Günlük API kullanım limiti doldu"))
    /\ (~ message_contains e (lit "API key") ->
        ~ message_contains e (lit "quota") ->
        message_contains e (lit "invalid") ->
        error (body resp) = Some (lit "Geçersiz dosya formatı")
        /\ details (body resp)
           = Some (lit "Dosya formatı okunamadı veya bozuk"))
    /\ (~ message_contains e (lit "API key") ->
        ~ message_contains e (lit "quota") ->
        ~ message_contains e (lit "invalid") ->
        error (body resp) = Some (lit "Analiz sırasında bir hata oluştu")
        /\ details (body resp) = message e).
Proof.
  intros Hthrow. unfold POST, try_catch. rewrite Hthrow.
  unfold POST_catch, bind, console_error, ret.
  destruct (message_includes e (lit "API key")) eqn:E1;
    [apply message_includes_spec in E1
    |apply message_includes_false in E1;
     destruct (message_includes e (lit "quota")) eqn:E2;
     [apply message_includes_spec in E2
     |apply message_includes_false in E2;
      destruct (message_includes e (lit "invalid")) eqn:E3;
      [apply message_includes_spec in E3
      |apply message_includes_false in E3]]];
    (eexists; split; [reflexivity|]);
    cbn [status body success error details NextResponse_json failure];
    repeat match goal with |- _ /\ _ => split end;
    try reflexivity; intros; first [contradiction | now split].
Qed.

(** C8. The readiness payload lists exactly the seven allowed MIME types
    and gives the size ceiling as "20MB". *)
Theorem GET_payload :
  supportedFileTypes (snd GET)
  = [ lit "application/pdf";
      lit "text/csv";
      lit "application/msword";
      lit "application/vnd.openxmlformats-officedocument.wordprocessingml.document";
      lit "image/png";
      lit "image/jpeg";
      lit "image/jpg" ]
  /\ maxFileSize (snd GET) = lit "20MB".
Proof. split; reflexivity. Qed.

(** The label of the rejection of an oversized file is given by no other
    path of the handler. *)
Lemma POST_catch_not_too_large e st :
  error_of (POST_catch e st) <> Some (lit "Dosya boyutu çok büyük").
Proof.
  unfold POST_catch, bind, console_error, ret, error_of, response_of.
  repeat destruct (message_includes _ _); intros H; vm_compute in H;
    discriminate H.
Qed.

Lemma step1_not_too_large w st file walletAddress :
  error_of (try_catch (POST_step1 w file walletAddress) POST_catch st)
  <> Some (lit "Dosya boyutu çok büyük").
Proof.
  unfold try_catch, POST_step1, POST_health_check, POST_step2, bind, lift,
    ret, generateContent, HealthAnalysis_create, rewardUserForAnalysis.
  cases; try apply POST_catch_not_too_large;
    intros H; vm_compute in H; discriminate H.
Qed.

(** C9. The size check is strict. A file of at most 20971520 bytes, and
    so one of exactly 20 MiB, is never answered with the rejection of an
    oversized file; and when the handler reaches the size check with it
    (the connection is open and the earlier checks pass), the run goes on
    with STEP 1. *)
Theorem size_check_boundary w st file walletAddress :
  form_has w file walletAddress ->
  File_size file <= 20971520 ->
  error_of (POST w st) <> Some (lit "Dosya boyutu çok büyük")
  /\ ((exists u, dbConnect_result w = Normal u) ->
      walletAddress <> [] ->
      Array_includes ALLOWED_FILE_TYPES (File_type file) = true ->
      POST w st
      = try_catch (POST_step1 w file walletAddress) POST_catch
          (record_call CallDbConnect st)).
Proof.
  intros Hform Hsize. split.
  - unfold POST, try_catch at 1. unfold POST_try, bind, dbConnect.
    unfold form_has in Hform. rewrite Hform.
    cbn [FormData_file FormData_walletAddress].
    change MAX_FILE_SIZE with 20971520.
    apply N.ltb_ge in Hsize. rewrite Hsize.
    destruct (dbConnect_result w) as [u|e];
      [|apply POST_catch_not_too_large].
    destruct walletAddress as [|c wa];
      [intros H; vm_compute in H; discriminate H|].
    destruct (Array_includes ALLOWED_FILE_TYPES (File_type file));
      cbn [negb].
    + apply (step1_not_too_large w _ file (c :: wa)).
    + unfold ret, error_of, response_of. cbn. intros H. discriminate H.
  - intros Hdb Hwallet Htype. unfold POST, try_catch.
    rewrite (POST_try_accepted w st file walletAddress); [reflexivity|].
    repeat split; assumption.
Qed.

(** C4, as the handler has it. Once the database connection is open, a
    request that carries a file and a wallet address, with an allowed
    MIME type and more than 20 MiB, is answered with the 400 envelope
    "Dosya boyutu çok büyük"; its details give the uploaded size in MiB
    with two decimals, as the integer part of [n / 100], the point and the
    two digits of [n mod 100], where [n / 100] is the hundredth nearest
    to [size / 2^20]. *)
Theorem oversized_upload_rejected w st file walletAddress :
  (exists u, dbConnect_result w = Normal u) ->
  form_has w file walletAddress ->
  walletAddress <> [] ->
  Array_includes ALLOWED_FILE_TYPES (File_type file) = true ->
  20 * 1024 * 1024 < File_size file ->
  let n := toFixed2_n (File_size file) in
  POST w st
  = (Normal
       (NextResponse_json
          (failure (lit "Dosya boyutu çok büyük")
             (Some (lit "Maksimum dosya boyutu: 20MB. Yüklenen dosya: "
                    ++ decimal (n / 100) ++ lit "."
                    ++ [48 + n mod 100 / 10; 48 + n mod 10]
                    ++ lit "MB")))
          400),
     record_call CallDbConnect st)
  /\ 1048576 * n <= 100 * File_size file + 524288
     < 1048576 * (n + 1).
Proof.
  intros [u Hdb] Hform Hwallet Htype Hsize n. split.
  - unfold POST, try_catch, POST_try, bind, dbConnect, ret.
    unfold form_has in Hform. rewrite Hdb, Hform.
    cbn [FormData_file FormData_walletAddress].
    destruct walletAddress as [|c wa]; [congruence|].
    rewrite Htype. cbn [negb].
    apply N.ltb_lt in Hsize. change (20 * 1024 * 1024) with MAX_FILE_SIZE in Hsize.
    rewrite Hsize, toFixed2_MiB_shape. fold n.
    rewrite <- !app_assoc. reflexivity.
  - apply toFixed2_n_nearest.
Qed.

(** C5, as the handler has it. The handler opens the database connection
    first, before it reads the form. The validation itself depends on the
    form alone, and when it fails (the form cannot be read, the file or
    the wallet address is missing, the type is not allowed or the file is
    too large) the connection is the only call the request makes to a
    collaborator, and nothing is stored. *)
Theorem failed_validation_calls_only_dbConnect w st :
  validated w = None ->
  exists l,
    calls (snd (POST w st)) = calls st ++ CallDbConnect :: l
    /\ existsb is_collaborator_call l = false
    /\ collection (snd (POST w st)) = collection st.
Proof.
  unfold validated, POST, try_catch, POST_try, bind, dbConnect, ret.
  intros Hv.
  assert (Hcatch : forall e,
    exists l,
      calls (snd (POST_catch e (record_call CallDbConnect st)))
      = calls st ++ CallDbConnect :: l
      /\ existsb is_collaborator_call l = false
      /\ collection (snd (POST_catch e (record_call CallDbConnect st)))
         = collection st).
  { intros e. exists [ConsoleError e]. rewrite POST_catch_state.
    unfold record_call. cbn [calls collection].
    now rewrite <- app_assoc. }
  assert (Hstop : forall resp : Response,
    exists l,
      calls (snd (Normal resp, record_call CallDbConnect st))
      = calls st ++ CallDbConnect :: l
      /\ existsb is_collaborator_call l = false
      /\ collection (snd (Normal resp, record_call CallDbConnect st))
         = collection st).
  { intros resp. now exists []. }
  destruct (dbConnect_result w) as [u|e]; [|apply Hcatch].
  destruct (request_formData w) as [[[file|] wallet]|e];
    cbn [FormData_file FormData_walletAddress] in *; try apply Hstop.
  destruct wallet as [[|c wa]|]; try apply Hstop.
  cbn [jsstring_eqb negb andb] in Hv.
  destruct (Array_includes ALLOWED_FILE_TYPES (File_type file));
    cbn [negb andb] in *; [|apply Hstop].
  rewrite N.ltb_antisym.
  destruct (File_size file <=? MAX_FILE_SIZE); [discriminate|].
  apply Hstop.
Qed.

(** C6. A reply wrapped in a triple-backquote fence, with or without the
    [json] tag, is cleaned to the same text as the reply itself, so both
    parse sites give the same outcome for the two: the same value or the
    same failure at the extractor's [JSON.parse], and the same verdict at
    the classifier's. *)
Theorem fenced_reply_round_trip (tagged : bool) (text : jsstring) :
  clean (fenced tagged text) = clean text
  /\ JSON_parse (clean (fenced tagged text)) = JSON_parse (clean text)
  /\ parse_healthCheck (fenced tagged text) = parse_healthCheck text.
Proof.
  unfold parse_healthCheck. now rewrite clean_fenced.
Qed.

End Pipeline.

(** ** The handler on the sample requests *)
Module Runs.
Import Reference Samples.

#[local] Existing Instance runtime.

Definition report_part : InlineData :=
  {| data := base64 (lit "%PDF-1.4"); mimeType := lit "application/pdf" |}.

Lemma report_accepted check analysis created rewarded :
  accepted_upload
    (world (Normal tt) (form report) check analysis created rewarded)
    report wallet.
Proof.
  repeat split; try (now exists tt); try discriminate.
Qed.

Lemma report_classifier_output db check analysis created rewarded :
  classifier_output
    (world db (form report) check analysis created rewarded)
    report report_part check.
Proof.
  exists (lit "%PDF-1.4"), {| response_text := Normal check |}.
  repeat split.
Qed.

Lemma report_extractor_output db fd check analysis created rewarded part :
  extractor_output (world db fd check analysis created rewarded)
    part analysis.
Proof.
  exists {| response_text := Normal analysis |}. split; reflexivity.
Qed.

Lemma positive_reply_verdict : positive_verdict positive_reply.
Proof. exists (Some (VBoolean true)). split; reflexivity. Qed.

(** A reply that is prose: the verdict defaults and the extraction call
    is made. *)
Lemma classifier_parse_failure_defaults_witness :
  In (CallGenerateContent JSON_ANALYSIS_PROMPT report_part)
    (calls (snd (POST (world (Normal tt) (form report) prose analysis_reply
                         (Normal tt) reward) st0))).
Proof.
  refine (proj2 (proj2
    (classifier_parse_failure_defaults
       (world (Normal tt) (form report) prose analysis_reply (Normal tt)
          reward)
       st0 report wallet report_part prose _ _ _))).
  - apply report_accepted.
  - apply report_classifier_output.
  - reflexivity.
Defined.

(** A negative verdict with plain fields: the 400 rejection. *)
Lemma negative_verdict_rejects_witness :
  status_of (POST (world (Normal tt) (form report) negative_reply
                     analysis_reply (Normal tt) reward) st0)
  = Some 400.
Proof.
  destruct (negative_verdict_rejects
              (world (Normal tt) (form report) negative_reply analysis_reply
                 (Normal tt) reward)
              st0 report wallet report_part negative_reply
              [ (lit "isHealthDocument", VBoolean false);
                (lit "confidence", VNumber 97%Z);
                (lit "documentType", VString (lit "Invoice"));
                (lit "reason", VString (lit "A bill")) ])
    as (_ & _ & H & _).
  - apply report_accepted.
  - apply report_classifier_output.
  - reflexivity.
  - reflexivity.
  - unfold status_of.
    now rewrite (H (lit "Invoice") (lit "97") (lit "A bill")
                   eq_refl eq_refl eq_refl).
Defined.

(** C2 fails as stated: the reply below parses to an object whose
    [isHealthDocument] is [false], and the request is answered with 500,
    because the conversion of its [documentType] to a string throws. *)
Lemma negative_verdict_can_answer_500 :
  let w := world (Normal tt) (form report) odd_negative_reply analysis_reply
             (Normal tt) reward in
  accepted_upload w report wallet
  /\ classifier_output w report report_part odd_negative_reply
  /\ (exists props,
        JSON_parse (clean odd_negative_reply) = Some (VObject props)
        /\ own_property (lit "isHealthDocument") props
           = Some (VBoolean false))
  /\ status_of (POST w st0) = Some 500
  /\ status_of (POST w st0) <> Some 400.
Proof.
  intros w. split; [apply report_accepted|].
  split; [apply report_classifier_output|].
  split; [eexists; split; vm_compute; reflexivity|].
  split; [vm_compute; reflexivity | vm_compute; discriminate].
Qed.

(** A positive verdict followed by prose from the extractor. *)
Lemma extractor_parse_failure_is_500_witness :
  status_of (POST (world (Normal tt) (form report) positive_reply prose
                     (Normal tt) reward) st0)
  = Some 500.
Proof.
  destruct (extractor_parse_failure_is_500
              (world (Normal tt) (form report) positive_reply prose
                 (Normal tt) reward)
              st0 report wallet report_part positive_reply prose)
    as (H & _).
  - apply report_accepted.
  - apply report_classifier_output.
  - apply positive_reply_verdict.
  - apply report_extractor_output.
  - reflexivity.
  - unfold status_of. now rewrite H.
Defined.

(** An upload one byte over the ceiling. *)
Lemma oversized_upload_rejected_witness :
  details_of (POST (world (Normal tt) (form (upload 20971521))
                      positive_reply analysis_reply (Normal tt) reward) st0)
  = Some (lit "Maksimum dosya boyutu: 20MB. Yüklenen dosya: 20.00MB").
Proof.
  destruct (oversized_upload_rejected
              (world (Normal tt) (form (upload 20971521)) positive_reply
                 analysis_reply (Normal tt) reward)
              st0 (upload 20971521) wallet)
    as (H & _).
  - now exists tt.
  - reflexivity.
  - discriminate.
  - reflexivity.
  - reflexivity.
  - now rewrite H.
Defined.

(** C4 fails as stated: the request below carries a file of an allowed
    type and a wallet address, the file has more than 20 MiB, and the
    response is 500, because the database connection, awaited first,
    is refused. *)
Lemma oversized_upload_with_database_down :
  let w := world (Throw db_down) (form (upload 20971521)) positive_reply
             analysis_reply (Normal tt) reward in
  form_has w (upload 20971521) wallet
  /\ wallet <> []
  /\ Array_includes ALLOWED_FILE_TYPES (File_type (upload 20971521)) = true
  /\ 20 * 1024 * 1024 < File_size (upload 20971521)
  /\ status_of (POST w st0) = Some 500
  /\ status_of (POST w st0) <> Some 400.
Proof.
  intros w. split; [reflexivity|]. split; [discriminate|].
  split; [reflexivity|]. split; [reflexivity|].
  split; [reflexivity | discriminate].
Qed.

(** A form without the file. *)
Definition no_file_world : World :=
  world (Normal tt)
    (Normal {| FormData_file := None;
               FormData_walletAddress := Some wallet |})
    positive_reply analysis_reply (Normal tt) reward.

Lemma failed_validation_calls_only_dbConnect_witness :
  exists l,
    calls (snd (POST no_file_world st0)) = calls st0 ++ CallDbConnect :: l
    /\ existsb is_collaborator_call l = false
    /\ collection (snd (POST no_file_world st0)) = collection st0.
Proof.
  apply (failed_validation_calls_only_dbConnect no_file_world st0).
  reflexivity.
Defined.

(** C5 fails as stated: the form below has no file, so the validation
    fails, and the request has called the database all the same. *)
Lemma database_is_called_before_validation :
  validated no_file_world = None
  /\ calls (snd (POST no_file_world st0)) = [CallDbConnect]
  /\ existsb is_collaborator_call (calls (snd (POST no_file_world st0)))
     = true
  /\ status_of (POST no_file_world st0) = Some 400.
Proof. repeat split. Qed.

(** The model refuses the first call for lack of quota. *)
Definition quota_world : World :=
  {| dbConnect_result := Normal tt;
     request_formData := form report;
     model_generateContent := fun _ _ => Throw quota_error;
     HealthAnalysis_create_result := fun _ => Normal tt;
     rewardUserForAnalysis_result := fun _ => reward |}.

Lemma uncaught_error_mapping_witness :
  exists resp,
    POST quota_world st0
    = (Normal resp,
       record_call (ConsoleError quota_error)
         {| calls := [CallDbConnect;
                      CallGenerateContent HEALTH_DOCUMENT_CHECK_PROMPT
                        report_part];
            collection := [] |})
    /\ status resp = 500.
Proof.
  destruct (uncaught_error_mapping quota_world st0 quota_error
              {| calls := [CallDbConnect;
                           CallGenerateContent HEALTH_DOCUMENT_CHECK_PROMPT
                             report_part];
                 collection := [] |})
    as (resp & H & Hstatus & _).
  - reflexivity.
  - exists resp. now split.
Defined.

(** An upload of exactly 20 MiB. *)
Lemma size_check_boundary_witness :
  error_of (POST (world (Normal tt) (form (upload 20971520)) negative_reply
                    analysis_reply (Normal tt) reward) st0)
  <> Some (lit "Dosya boyutu çok büyük").
Proof.
  apply (size_check_boundary
           (world (Normal tt) (form (upload 20971520)) negative_reply
              analysis_reply (Normal tt) reward)
           st0 (upload 20971520) wallet).
  - reflexivity.
  - discriminate.
Defined.

(** The insert resolves and the reward service is down. *)
Lemma reward_failure_keeps_record_witness :
  status_of (POST (world (Normal tt) (form report) positive_reply
                     analysis_reply (Normal tt) (Throw ledger_down)) st0)
  = Some 500
  /\ length (collection
               (snd (POST (world (Normal tt) (form report) positive_reply
                             analysis_reply (Normal tt) (Throw ledger_down))
                       st0)))
     = 1%nat.
Proof.
  destruct (reward_failure_keeps_record
              (world (Normal tt) (form report) positive_reply analysis_reply
                 (Normal tt) (Throw ledger_down))
              st0 report wallet report_part positive_reply analysis_reply
              (VObject
                 [ (lit "title", VString (lit "Blood test"));
                   (lit "documentType", VString (lit "Blood Test"));
                   (lit "findings", VArray []);
                   (lit "confidence", VNumber 85%Z) ])
              ledger_down)
    as (Hstatus & _ & Hstore & _).
  - apply report_accepted.
  - apply report_classifier_output.
  - apply positive_reply_verdict.
  - apply report_extractor_output.
  - reflexivity.
  - now exists tt.
  - reflexivity.
  - split; [exact Hstatus | now rewrite Hstore].
Defined.

End Runs.

(** * Further properties of the handler *)


Section Answers.
Context {RT : Runtime}.

Lemma validated_accepted w file walletAddress :
  (exists u, dbConnect_result w = Normal u) ->
  validated w = Some (file, walletAddress) ->
  accepted_upload w file walletAddress.
Proof.
  intros Hdb Hv. unfold validated in Hv.
  destruct (request_formData w) as [[[f|] [wa|]]|e] eqn:E; try discriminate.
  destruct (jsstring_eqb wa []) eqn:Ewa; cbn [negb andb] in Hv;
    [discriminate|].
  destruct (Array_includes ALLOWED_FILE_TYPES (File_type f)) eqn:Et;
    cbn [andb] in Hv; [|discriminate].
  destruct (File_size f <=? MAX_FILE_SIZE) eqn:Es; [|discriminate].
  injection Hv as <- <-.
  repeat split; try assumption.
  - intros ->. discriminate.
  - now apply N.leb_le.
Qed.







(** ** The paths of a run *)

Lemma step2_run w st file walletAddress part :
  Step2Outcome w file walletAddress part st
    (try_catch (POST_step2 w file walletAddress part) POST_catch st).
Proof.
  unfold try_catch, POST_step2, bind, lift, ret, generateContent,
    HealthAnalysis_create, rewardUserForAnalysis.
  destruct (model_generateContent w JSON_ANALYSIS_PROMPT part) as [result|e]
    eqn:Egen; [|apply S2_model_error; now left].
  destruct (response_text result) as [analysisText|e] eqn:Etext;
    [|apply S2_model_error; right; now exists result].
  assert (Hout : extractor_output w part analysisText)
    by (now exists result).
  destruct (JSON_parse (clean analysisText)) as [parsedAnalysis|] eqn:Eparse;
    [|now apply (S2_parse_failure _ _ _ _ _ analysisText)].
  fold (analysis_doc file walletAddress parsedAnalysis).
  destruct (HealthAnalysis_create_result w _) as [u|e] eqn:Ecreate;
    [|now apply (S2_create_error _ _ _ _ _ analysisText)].
  destruct (rewardUserForAnalysis_result w walletAddress) as [r|e] eqn:Erew.
  - now apply (S2_success _ _ _ _ _ analysisText parsedAnalysis u r).
  - now apply (S2_reward_error _ _ _ _ _ analysisText parsedAnalysis u e).
Qed.

Lemma health_check_run w st file walletAddress part checkText :
  HealthOutcome w file walletAddress part checkText st
    (try_catch (POST_health_check w file walletAddress part checkText)
       POST_catch st).
Proof.
  destruct (Get (parse_healthCheck checkText) (lit "isHealthDocument"))
    as [v|e] eqn:Ev.
  2:{ unfold try_catch, POST_health_check, bind, lift. cbv zeta. rewrite Ev.
      now apply H_verdict_error. }
  destruct (ToBoolean v) eqn:Eb.
  - replace (try_catch _ _ st)
      with (try_catch (POST_step2 w file walletAddress part) POST_catch st)
      by (unfold try_catch, POST_health_check, bind, lift; cbv zeta;
          now rewrite Ev, Eb).
    apply H_positive; [now exists v | apply step2_run].
  - unfold try_catch, POST_health_check, bind, lift, ret. cbv zeta.
    rewrite Ev, Eb. cbn [negb].
    destruct (Get _ (lit "documentType")) as [d|e] eqn:Ed;
      [|now apply (H_conversion_error _ _ _ _ _ _ v)].
    destruct (ToString_opt d) as [sT|e] eqn:EsT;
      [|now apply (H_conversion_error _ _ _ _ _ _ v)].
    destruct (Get _ (lit "confidence")) as [c|e] eqn:Ec;
      [|now apply (H_conversion_error _ _ _ _ _ _ v)].
    destruct (ToString_opt c) as [sC|e] eqn:EsC;
      [|now apply (H_conversion_error _ _ _ _ _ _ v)].
    destruct (Get _ (lit "reason")) as [r|e] eqn:Er;
      [|now apply (H_conversion_error _ _ _ _ _ _ v)].
    destruct (ToString_opt r) as [sR|e] eqn:EsR;
      [|now apply (H_conversion_error _ _ _ _ _ _ v)].
    apply (H_rejected _ _ _ _ _ _ v); eauto.
Qed.

Lemma step1_run w st file walletAddress :
  Step1Outcome w file walletAddress st
    (try_catch (POST_step1 w file walletAddress) POST_catch st).
Proof.
  destruct (File_arrayBuffer file tt) as [bytes|e] eqn:Ebytes.
  2:{ unfold try_catch, POST_step1, bind, lift. rewrite Ebytes.
      now apply S1_read_error. }
  set (part := {| data := base64 bytes; mimeType := File_type file |}).
  destruct (model_generateContent w HEALTH_DOCUMENT_CHECK_PROMPT part)
    as [result|e] eqn:Egen.
  2:{ unfold try_catch, POST_step1, bind, lift, generateContent.
      rewrite Ebytes. fold part. rewrite Egen.
      apply (S1_model_error _ _ _ _ bytes e Ebytes). now left. }
  destruct (response_text result) as [checkText|e] eqn:Etext.
  2:{ unfold try_catch, POST_step1, bind, lift, generateContent.
      rewrite Ebytes. fold part. rewrite Egen, Etext.
      apply (S1_model_error _ _ _ _ bytes e Ebytes). right.
      now exists result. }
  assert (Hc : classifier_output w file part checkText)
    by (exists bytes, result; repeat split; assumption).
  replace (try_catch (POST_step1 w file walletAddress) POST_catch st)
    with (try_catch (POST_health_check w file walletAddress part checkText)
            POST_catch
            (record_call
               (CallGenerateContent HEALTH_DOCUMENT_CHECK_PROMPT part) st))
    by (unfold try_catch; now rewrite (POST_step1_output _ _ _ _ _ _ Hc)).
  apply (S1_classified _ _ _ _ part checkText); [exact Hc|].
  apply health_check_run.
Qed.

Lemma validated_none_rejected w st u :
  dbConnect_result w = Normal u ->
  validated w = None ->
  exists resp,
    POST_try w st = (Normal resp, record_call CallDbConnect st)
    /\ status resp = 400 /\ success (body resp) = false.
Proof.
  intros Hdb Hv. unfold validated in Hv.
  unfold POST_try, bind, dbConnect, ret. rewrite Hdb.
  destruct (request_formData w) as [[[file|] wallet]|e];
    cbn [FormData_file FormData_walletAddress] in *;
    try solve [eexists; repeat split; reflexivity].
  destruct wallet as [[|c wa]|]; try solve [eexists; repeat split; reflexivity].
  cbn [jsstring_eqb negb andb] in Hv.
  destruct (Array_includes ALLOWED_FILE_TYPES (File_type file));
    cbn [negb andb] in *; [|solve [eexists; repeat split; reflexivity]].
  rewrite N.ltb_antisym.
  destruct (File_size file <=? MAX_FILE_SIZE); [discriminate|].
  eexists; repeat split; reflexivity.
Qed.

Lemma POST_run w st : PostOutcome w st (POST w st).
Proof.
  destruct (dbConnect_result w) as [u|e] eqn:Hdb.
  2:{ unfold POST, try_catch, POST_try, bind, dbConnect. rewrite Hdb.
      now apply P_db_error. }
  destruct (validated w) as [[file walletAddress]|] eqn:Hv.
  - assert (Ha : accepted_upload w file walletAddress)
      by (apply validated_accepted; [now exists u | exact Hv]).
    replace (POST w st)
      with (try_catch (POST_step1 w file walletAddress) POST_catch
              (record_call CallDbConnect st))
      by (unfold POST, try_catch; now rewrite (POST_try_accepted _ _ _ _ Ha)).
    apply (P_accepted _ _ file walletAddress); [exact Ha | exact Hv|].
    apply step1_run.
  - destruct (validated_none_rejected w st u Hdb Hv) as (resp & E & Hs & Hok).
    unfold POST, try_catch. rewrite E.
    apply P_rejected; [now exists u | assumption..].
Qed.

End Answers.

(** ** What a request calls, stores and answers *)

Section Invariants.
Context {RT : Runtime}.

(** Normal form of the calls and the collection of a final state. *)
Ltac final_state :=
  rewrite ?POST_catch_state;
  unfold record_call, store_doc;
  cbn [fst snd calls collection];
  rewrite <- ?app_assoc; cbn [app].

Ltac done_calls :=
  final_state; repeat split; eauto; try lia;
  try (right; split; [lia | reflexivity]).

(** X2. The calls of a request follow one fixed order: the database
    connection, the health check, the detailed analysis, the insert and the
    reward. A request makes the first [k] of them, at least the connection,
    then at most one log line, and nothing else. The model is called only
    for a validated upload, both times with the same part, which holds the
    base64 text of the file and its declared type; and the collection is
    left as it was, or, once the insert has been reached, extended by the
    inserted document. *)
Theorem POST_call_sequence w st :
  exists part doc walletAddress k log,
    calls (snd (POST w st))
    = calls st ++ firstn k (request_calls part doc walletAddress) ++ log
    /\ (1 <= k <= 5)%nat
    /\ (log = [] \/ exists e, log = [ConsoleError e])
    /\ ((2 <= k)%nat ->
        exists file bytes,
          validated w = Some (file, walletAddress)
          /\ File_arrayBuffer file tt = Normal bytes
          /\ part = {| data := base64 bytes; mimeType := File_type file |})
    /\ (collection (snd (POST w st)) = collection st
        \/ ((4 <= k)%nat
            /\ collection (snd (POST w st)) = collection st ++ [doc])).
Proof.
  set (part0 := {| data := []; mimeType := [] |}).
  set (doc0 := {| doc_walletAddress := []; doc_fileName := [];
                  doc_fileSize := 0; doc_fileType := []; doc_format := [];
                  doc_analysisData := VNull |}).
  destruct (POST_run w st)
    as [e Hdb | resp Hdb Hv Hs Hok | file walletAddress r Ha Hv H1].
  - exists part0, doc0, [], 1%nat, [ConsoleError e]. done_calls.
  - exists part0, doc0, [], 1%nat, []. done_calls.
  - destruct H1 as [e He | bytes e Hb He | part checkText r Hc Hh].
    + exists part0, doc0, walletAddress, 1%nat, [ConsoleError e]. done_calls.
    + exists {| data := base64 bytes; mimeType := File_type file |}, doc0,
        walletAddress, 2%nat, [ConsoleError e]. done_calls.
    + assert (Hpart : exists file' bytes,
                validated w = Some (file', walletAddress)
                /\ File_arrayBuffer file' tt = Normal bytes
                /\ part = {| data := base64 bytes;
                             mimeType := File_type file' |}).
      { destruct Hc as (bytes & result & Hb & Hp & _).
        now exists file, bytes. }
      destruct Hh as [e He | v sT sC sR Hg Hb _ _ _ | v e Hg Hb | r Hp H2].
      * exists part, doc0, walletAddress, 2%nat, [ConsoleError e].
        done_calls.
      * exists part, doc0, walletAddress, 2%nat, []. done_calls.
      * exists part, doc0, walletAddress, 2%nat, [ConsoleError e].
        done_calls.
      * destruct H2 as [e He | text Ho Hn | text a e Ho Hs He
                       | text a u e Ho Hs Hu He | text a u r Ho Hs Hu Hr].
        -- exists part, doc0, walletAddress, 3%nat, [ConsoleError e].
           done_calls.
        -- exists part, doc0, walletAddress, 3%nat, []. done_calls.
        -- exists part, (analysis_doc file walletAddress a), walletAddress,
             4%nat, [ConsoleError e]. done_calls.
        -- exists part, (analysis_doc file walletAddress a), walletAddress,
             5%nat, [ConsoleError e]. done_calls.
        -- exists part, (analysis_doc file walletAddress a), walletAddress,
             5%nat, []. done_calls.
Qed.

(** The case at hand does not answer with the status assumed. *)
Ltac wrong_status :=
  let H := fresh in
  intros H;
  first [ rewrite POST_catch_status in H
        | cbv [status_of response_of fst option_map status NextResponse_json]
            in H ];
  discriminate H.

(** X3. The success path. For an accepted upload with a positive verdict,
    an extractor reply that parses, an insert that resolves and a reward
    that resolves, the response is the 200 envelope with the parsed
    analysis, the name, size and type of the file and the three fields of
    the reward; the five calls are made in order, and the collection gains
    the one document built from the wallet address, the file and the
    analysis, with format "json". *)
Theorem POST_success
  w st file walletAddress part checkText analysisText parsedAnalysis r :
  accepted_upload w file walletAddress ->
  classifier_output w file part checkText ->
  positive_verdict checkText ->
  extractor_output w part analysisText ->
  JSON_parse (clean analysisText) = Some parsedAnalysis ->
  (exists u, HealthAnalysis_create_result w
               (analysis_doc file walletAddress parsedAnalysis) = Normal u) ->
  rewardUserForAnalysis_result w walletAddress = Normal r ->
  fst (POST w st)
  = Normal (NextResponse_json (success_envelope file parsedAnalysis r) 200)
  /\ calls (snd (POST w st))
     = calls st
       ++ request_calls part (analysis_doc file walletAddress parsedAnalysis)
            walletAddress
  /\ collection (snd (POST w st))
     = collection st ++ [analysis_doc file walletAddress parsedAnalysis].
Proof.
  intros Ha Hc Hp (result & Hgen & Htext) Hparse [u Hcreate] Hreward.
  rewrite (POST_reaches_step2 w st _ _ _ _ Ha Hc Hp).
  unfold try_catch, POST_step2, bind, lift, ret, generateContent,
    HealthAnalysis_create, rewardUserForAnalysis.
  rewrite Hgen, Htext, Hparse.
  fold (analysis_doc file walletAddress parsedAnalysis).
  rewrite Hcreate, Hreward. final_state. repeat split.
Qed.

(** X4. A 200 answer means the whole pipeline ran: the upload passed the
    validation, the response is the success envelope for its file, all five
    calls were made in order, the reward resolved, and the collection
    gained exactly the document of this request. *)
Theorem POST_200_inversion w st :
  status_of (POST w st) = Some 200 ->
  exists file walletAddress part parsedAnalysis r,
    validated w = Some (file, walletAddress)
    /\ rewardUserForAnalysis_result w walletAddress = Normal r
    /\ fst (POST w st)
       = Normal (NextResponse_json (success_envelope file parsedAnalysis r)
                   200)
    /\ calls (snd (POST w st))
       = calls st
         ++ request_calls part
              (analysis_doc file walletAddress parsedAnalysis) walletAddress
    /\ collection (snd (POST w st))
       = collection st ++ [analysis_doc file walletAddress parsedAnalysis].
Proof.
  destruct (POST_run w st)
    as [e Hdb | resp Hdb Hv Hs Hok | file walletAddress r Ha Hv H1].
  - wrong_status.
  - unfold status_of, response_of. cbn. rewrite Hs. discriminate.
  - destruct H1 as [e He | bytes e Hb He | part checkText r Hc Hh];
      try wrong_status.
    destruct Hh as [e He | v sT sC sR Hg Hb _ _ _ | v e Hg Hb | r Hp H2];
      try wrong_status.
    destruct H2 as [e He | text Ho Hn | text a e Ho Hs He
                   | text a u e Ho Hs Hu He | text a u r Ho Hs Hu Hr];
      try wrong_status.
    intros _. exists file, walletAddress, part, a, r. final_state.
    repeat split; assumption.
Qed.

(** X5. A 400 answer leaves no trace beyond the connection and, for a
    rejected document, the health check: nothing is stored, and the
    request calls neither the extractor, the insert nor the reward, and
    logs nothing. *)
Theorem POST_400_inversion w st :
  status_of (POST w st) = Some 400 ->
  collection (snd (POST w st)) = collection st
  /\ (calls (snd (POST w st)) = calls st ++ [CallDbConnect]
      \/ exists part,
           calls (snd (POST w st))
           = calls st
             ++ [ CallDbConnect;
                  CallGenerateContent HEALTH_DOCUMENT_CHECK_PROMPT part ]).
Proof.
  destruct (POST_run w st)
    as [e Hdb | resp Hdb Hv Hs Hok | file walletAddress r Ha Hv H1].
  - wrong_status.
  - intros _. final_state. now split; [|left].
  - destruct H1 as [e He | bytes e Hb He | part checkText r Hc Hh];
      try wrong_status.
    destruct Hh as [e He | v sT sC sR Hg Hb _ _ _ | v e Hg Hb | r Hp H2];
      try wrong_status.
    + intros _. final_state. split; [reflexivity|]. right. now exists part.
    + destruct H2 as [e He | text Ho Hn | text a e Ho Hs He
                     | text a u e Ho Hs Hu He | text a u r Ho Hs Hu Hr];
        wrong_status.
Qed.

(** X6. When the insert rejects, the response is a 500 failure envelope,
    nothing is stored, and the reward service is not called: the calls end
    with the insert and the log line. *)
Theorem create_failure_skips_reward
  w st file walletAddress part checkText analysisText parsedAnalysis e :
  accepted_upload w file walletAddress ->
  classifier_output w file part checkText ->
  positive_verdict checkText ->
  extractor_output w part analysisText ->
  JSON_parse (clean analysisText) = Some parsedAnalysis ->
  HealthAnalysis_create_result w
    (analysis_doc file walletAddress parsedAnalysis) = Throw e ->
  status_of (POST w st) = Some 500
  /\ collection (snd (POST w st)) = collection st
  /\ calls (snd (POST w st))
     = calls st
       ++ [ CallDbConnect;
            CallGenerateContent HEALTH_DOCUMENT_CHECK_PROMPT part;
            CallGenerateContent JSON_ANALYSIS_PROMPT part;
            CallCreate (analysis_doc file walletAddress parsedAnalysis);
            ConsoleError e ].
Proof.
  intros Ha Hc Hp (result & Hgen & Htext) Hparse Hcreate.
  rewrite (POST_reaches_step2 w st _ _ _ _ Ha Hc Hp).
  unfold try_catch, POST_step2, bind, lift, ret, generateContent,
    HealthAnalysis_create.
  rewrite Hgen, Htext, Hparse.
  fold (analysis_doc file walletAddress parsedAnalysis).
  rewrite Hcreate, POST_catch_status. final_state. repeat split.
Qed.

(** X7. A body that cannot be read as a form is a client error: with the
    connection open, the response is the 400 envelope "Invalid request
    format", whatever the error says; the error does not reach the outer
    catch, nothing is logged and no further call is made. *)
Theorem unreadable_form_is_400 w st e :
  (exists u, dbConnect_result w = Normal u) ->
  request_formData w = Throw e ->
  POST w st
  = (Normal
       (NextResponse_json
          (failure (lit "Invalid request format")
             (Some (lit "Request body must be sent as multipart/form-data. Please ensure you are sending the file using FormData with the correct Content-Type header.")))
          400),
     record_call CallDbConnect st).
Proof.
  intros [u Hdb] Hform.
  unfold POST, try_catch, POST_try, bind, dbConnect, ret.
  now rewrite Hdb, Hform.
Qed.

(** X8. When the database connection is refused, every request, whatever
    its form, is answered with a 500 failure envelope; the form is not
    read, and the connection and the log line are the only calls. *)
Theorem database_failure_is_500 w st e :
  dbConnect_result w = Throw e ->
  status_of (POST w st) = Some 500
  /\ calls (snd (POST w st)) = calls st ++ [CallDbConnect; ConsoleError e]
  /\ collection (snd (POST w st)) = collection st.
Proof.
  intros Hdb. unfold POST, try_catch, POST_try, bind, dbConnect.
  rewrite Hdb, POST_catch_status. final_state. repeat split.
Qed.

(** X9. The presence checks come first and in this order. Without a file
    the response is the 400 envelope for the missing file, whatever else
    the form holds; with a file, a wallet address that is absent or the
    empty string gives the 400 envelope for the missing wallet address,
    whatever the type and the size of the file. Neither has details. *)
Theorem presence_checks w st fd :
  (exists u, dbConnect_result w = Normal u) ->
  request_formData w = Normal fd ->
  (FormData_file fd = None ->
   POST w st
   = (Normal
        (NextResponse_json
           (failure (lit "Dosya bulunamadı. Lütfen bir dosya yükleyin.") None)
           400),
      record_call CallDbConnect st))
  /\ (FormData_file fd <> None ->
      FormData_walletAddress fd = None
      \/ FormData_walletAddress fd = Some [] ->
      POST w st
      = (Normal
           (NextResponse_json
              (failure
                 (lit "Wallet adresi gerekli. Lütfen wallet adresinizi gönderin.")
                 None)
              400),
         record_call CallDbConnect st)).
Proof.
  intros [u Hdb] Hform.
  unfold POST, try_catch, POST_try, bind, dbConnect, ret.
  rewrite Hdb, Hform. destruct fd as [[file|] wallet];
    cbn [FormData_file FormData_walletAddress]; split;
    try congruence; try reflexivity.
  intros _ [->| ->]; reflexivity.
Qed.

(** X10. The type check comes before the size check: a file whose declared
    type is not in the list is answered with the 400 envelope that names
    this type, also when the file is too large. *)
Theorem unsupported_type_rejected w st file walletAddress :
  (exists u, dbConnect_result w = Normal u) ->
  form_has w file walletAddress ->
  walletAddress <> [] ->
  Array_includes ALLOWED_FILE_TYPES (File_type file) = false ->
  POST w st
  = (Normal
       (NextResponse_json
          (failure (lit "Desteklenmeyen dosya tipi: " ++ File_type file)
             (Some (lit "Desteklenen formatlar: PDF, CSV, DOC, DOCX, PNG, JPEG")))
          400),
     record_call CallDbConnect st).
Proof.
  intros [u Hdb] Hform Hwallet Htype.
  unfold POST, try_catch, POST_try, bind, dbConnect, ret.
  unfold form_has in Hform. rewrite Hdb, Hform.
  cbn [FormData_file FormData_walletAddress].
  destruct walletAddress as [|c wa]; [congruence|].
  now rewrite Htype.
Qed.

(** X11. Only a parse failure is replaced by the default verdict. When the
    classification call itself fails, or the text of its response cannot be
    read, the error goes to the outer catch: the response is a 500 failure
    envelope, the extractor is not called and nothing is stored. *)
Theorem classifier_failure_is_500 w st file walletAddress bytes e :
  accepted_upload w file walletAddress ->
  File_arrayBuffer file tt = Normal bytes ->
  let part := {| data := base64 bytes; mimeType := File_type file |} in
  (model_generateContent w HEALTH_DOCUMENT_CHECK_PROMPT part = Throw e
   \/ exists result,
        model_generateContent w HEALTH_DOCUMENT_CHECK_PROMPT part
        = Normal result
        /\ response_text result = Throw e) ->
  status_of (POST w st) = Some 500
  /\ calls (snd (POST w st))
     = calls st
       ++ [ CallDbConnect;
            CallGenerateContent HEALTH_DOCUMENT_CHECK_PROMPT part;
            ConsoleError e ]
  /\ collection (snd (POST w st)) = collection st.
Proof.
  intros Ha Hbytes part Hfail. unfold POST, try_catch.
  rewrite (POST_try_accepted _ _ _ _ Ha).
  unfold POST_step1, bind, lift, generateContent. rewrite Hbytes. fold part.
  destruct Hfail as [Hgen | (result & Hgen & Htext)];
    rewrite Hgen, ?Htext, POST_catch_status; final_state; repeat split.
Qed.

(** X12. A reply that is the JSON text [null] parses, so no default is
    taken, and reading [isHealthDocument] from it throws: the response is
    the generic 500 envelope with the engine's message as details; the
    extractor is not called. *)
Theorem null_verdict_is_500 w st file walletAddress part checkText :
  accepted_upload w file walletAddress ->
  classifier_output w file part checkText ->
  JSON_parse (clean checkText) = Some VNull ->
  fst (POST w st)
  = Normal
      (NextResponse_json
         (failure (lit "Analiz sırasında bir hata oluştu")
            (message (TypeError_null_property (lit "isHealthDocument"))))
         500)
  /\ calls (snd (POST w st))
     = calls st
       ++ [ CallDbConnect;
            CallGenerateContent HEALTH_DOCUMENT_CHECK_PROMPT part;
            ConsoleError (TypeError_null_property (lit "isHealthDocument")) ]
  /\ collection (snd (POST w st)) = collection st.
Proof.
  intros Ha Hc Hparse.
  rewrite (POST_reaches_health_check w st _ _ _ _ Ha Hc).
  unfold try_catch, POST_health_check, parse_healthCheck, bind, lift.
  rewrite Hparse. cbn [Get]. final_state. repeat split.
Qed.

(** X13. A reply that is valid JSON but carries none of the four fields of
    a verdict (a number, a string, a boolean, an array, or an object
    without them, such as the empty object) counts as a negative verdict:
    the response is the 400 rejection, with type, confidence and reason
    all printed as "undefined", and the extractor is not called. *)
Theorem verdict_without_fields_rejects
  w st file walletAddress part checkText v :
  accepted_upload w file walletAddress ->
  classifier_output w file part checkText ->
  JSON_parse (clean checkText) = Some v ->
  match v with
  | VNull => False
  | VObject props =>
      own_property (lit "isHealthDocument") props = None
      /\ own_property (lit "documentType") props = None
      /\ own_property (lit "confidence") props = None
      /\ own_property (lit "reason") props = None
  | _ => True
  end ->
  POST w st
  = (Normal
       (NextResponse_json
          (failure (lit "This document is not health-related")
             (Some (not_health_details (lit "undefined") (lit "undefined")
                      (lit "undefined"))))
          400),
     record_call (CallGenerateContent HEALTH_DOCUMENT_CHECK_PROMPT part)
       (record_call CallDbConnect st)).
Proof.
  intros Ha Hc Hparse Hv.
  rewrite (POST_reaches_health_check w st _ _ _ _ Ha Hc).
  unfold try_catch, POST_health_check, parse_healthCheck, bind, lift, ret.
  rewrite Hparse.
  destruct v as [|b|n|s|els|props]; try contradiction; cbn [Get];
    try reflexivity.
  destruct Hv as (-> & -> & -> & ->). reflexivity.
Qed.

(** X14. The verdict is tested for truthiness, not for [true]: a reply
    whose [isHealthDocument] is a string that is not empty, the string
    "false" included, counts as positive, and the handler goes on with the
    extraction. *)
Theorem string_verdict_is_positive
  w st file walletAddress part checkText props s :
  accepted_upload w file walletAddress ->
  classifier_output w file part checkText ->
  JSON_parse (clean checkText) = Some (VObject props) ->
  own_property (lit "isHealthDocument") props = Some (VString s) ->
  s <> [] ->
  POST w st
  = try_catch (POST_step2 w file walletAddress part) POST_catch
      (record_call (CallGenerateContent HEALTH_DOCUMENT_CHECK_PROMPT part)
         (record_call CallDbConnect st)).
Proof.
  intros Ha Hc Hparse Hs Hne.
  apply (POST_reaches_step2 w st _ _ _ _ Ha Hc).
  exists (Some (VString s)). unfold parse_healthCheck. rewrite Hparse.
  cbn [Get ToBoolean]. split; [now rewrite Hs|].
  destruct s; [congruence | reflexivity].
Qed.

Lemma step1_not_unsupported w st file walletAddress t :
  error_of (try_catch (POST_step1 w file walletAddress) POST_catch st)
  <> Some (lit "Desteklenmeyen dosya tipi: " ++ t).
Proof.
  unfold try_catch, POST_step1, POST_health_check, POST_step2, bind, lift,
    ret, generateContent, HealthAnalysis_create, rewardUserForAnalysis,
    POST_catch, console_error.
  cases; intros H; vm_compute in H; discriminate H.
Qed.

(** X15. [GET] and [POST] agree on the types: for a request that carries a
    file and a wallet address, with the connection open, [POST] answers
    with the rejection of the file's type exactly when [GET] does not list
    that type. *)
Theorem GET_lists_the_accepted_types w st file walletAddress :
  (exists u, dbConnect_result w = Normal u) ->
  form_has w file walletAddress ->
  walletAddress <> [] ->
  error_of (POST w st)
  = Some (lit "Desteklenmeyen dosya tipi: " ++ File_type file)
  <-> Array_includes (supportedFileTypes (snd GET)) (File_type file) = false.
Proof.
  intros [u Hdb] Hform Hwallet. cbn [GET snd supportedFileTypes].
  unfold POST. unfold try_catch at 1. unfold POST_try, bind, dbConnect, ret.
  unfold form_has in Hform. rewrite Hdb, Hform.
  cbn [FormData_file FormData_walletAddress].
  destruct walletAddress as [|c wa]; [congruence|].
  destruct (Array_includes ALLOWED_FILE_TYPES (File_type file)); cbn [negb].
  - split; [|discriminate]. intros H. exfalso. revert H.
    destruct (MAX_FILE_SIZE <? File_size file).
    + intros H; vm_compute in H; discriminate H.
    + apply (step1_not_unsupported w _ file (c :: wa)).
  - split; reflexivity.
Qed.

End Invariants.

(** * Further properties of the cleaning *)

Lemma includes_cons_ne c r p0 p :
  p0 <> c -> includes (c :: r) (p0 :: p) = includes r (p0 :: p).
Proof.
  intros H. rewrite includes_unfold. now rewrite strip_prefix_cons_ne.
Qed.

(** After the second pass no three backquotes are left in a row. *)
Lemma replace_fence_no_fence s : includes (replace_fence s) FENCE = false.
Proof.
  unfold replace_fence, FENCE. change (lit "``") with [BACKQUOTE; BACKQUOTE].
  remember (length s) as n eqn:Hn. revert s Hn.
  induction n as [n IH] using lt_wf_ind. intros s Hn.
  assert (step : forall y, (length y < n)%nat ->
            includes (replace_global BACKQUOTE [BACKQUOTE; BACKQUOTE] y)
              [BACKQUOTE; BACKQUOTE; BACKQUOTE] = false).
  { intros y Hy. now apply (IH (length y)). }
  assert (keep : forall c y, BACKQUOTE <> c ->
            replace_global BACKQUOTE [BACKQUOTE; BACKQUOTE] (c :: y)
            = c :: replace_global BACKQUOTE [BACKQUOTE; BACKQUOTE] y).
  { intros c y Hc. rewrite replace_global_cons. unfold match_here.
    now rewrite strip_prefix_cons_ne. }
  destruct s as [|c s]; [reflexivity|]. simpl in Hn.
  destruct (N.eq_dec BACKQUOTE c) as [<-|Hc].
  2:{ rewrite keep, includes_cons_ne by exact Hc. apply step. lia. }
  destruct s as [|d s]; [reflexivity|]. simpl in Hn.
  destruct (N.eq_dec BACKQUOTE d) as [<-|Hd].
  2:{ rewrite replace_global_cons. unfold match_here.
      rewrite strip_prefix_cons_eq, strip_prefix_cons_ne by exact Hd.
      rewrite keep by exact Hd.
      rewrite includes_unfold, strip_prefix_cons_eq, strip_prefix_cons_ne
        by exact Hd.
      rewrite includes_cons_ne by exact Hd. apply step. lia. }
  destruct s as [|e s]; [reflexivity|]. simpl in Hn.
  destruct (N.eq_dec BACKQUOTE e) as [<-|He].
  2:{ rewrite replace_global_cons. unfold match_here.
      rewrite !strip_prefix_cons_eq, strip_prefix_cons_ne by exact He.
      rewrite (replace_global_cons _ _ BACKQUOTE (e :: s)). unfold match_here.
      rewrite strip_prefix_cons_eq, strip_prefix_cons_ne by exact He.
      rewrite keep by exact He.
      rewrite includes_unfold, !strip_prefix_cons_eq, strip_prefix_cons_ne
        by exact He.
      rewrite includes_unfold, strip_prefix_cons_eq, strip_prefix_cons_ne
        by exact He.
      rewrite includes_cons_ne by exact He. apply step. lia. }
  rewrite replace_global_cons. unfold match_here.
  rewrite !strip_prefix_cons_eq. cbn [strip_prefix].
  apply step. pose proof (skip_LF_length s). lia.
Qed.

(** [trim] keeps a run of the characters of its argument. *)
Lemma trimStart_suffix s : exists pre, s = pre ++ trimStart s.
Proof.
  induction s as [|c s [pre IH]]; [now exists []|]. simpl.
  destruct (is_space c); [|now exists []].
  exists (c :: pre). simpl. now rewrite <- IH.
Qed.

Lemma trimEnd_prefix s : exists post, s = trimEnd s ++ post.
Proof.
  unfold trimEnd. destruct (trimStart_suffix (rev s)) as [pre H].
  exists (rev pre). rewrite <- rev_app_distr, <- H. now rewrite rev_involutive.
Qed.

Lemma trim_infix s : exists pre post, s = pre ++ trim s ++ post.
Proof.
  unfold trim. destruct (trimStart_suffix s) as [pre H].
  destruct (trimEnd_prefix (trimStart s)) as [post H'].
  exists pre, post. now rewrite <- H', <- H.
Qed.

Lemma includes_infix a b c p :
  includes (a ++ b ++ c) p = false -> includes b p = false.
Proof.
  intros H. destruct (includes b p) eqn:E; [|reflexivity].
  apply includes_spec in E. destruct E as (x & y & ->).
  assert (includes (a ++ (x ++ p ++ y) ++ c) p = true) as H'.
  { apply includes_spec. exists (a ++ x), (y ++ c).
    now rewrite <- !app_assoc. }
  congruence.
Qed.

Lemma trimStart_head s c rest : trimStart s = c :: rest -> is_space c = false.
Proof.
  induction s as [|a s IH]; simpl; [discriminate|].
  destruct (is_space a) eqn:E; [exact IH|]. now intros [= <- _].
Qed.

Lemma trimEnd_last s init c : trimEnd s = init ++ [c] -> is_space c = false.
Proof.
  unfold trimEnd. intros H. apply (f_equal (@rev char16)) in H.
  rewrite rev_involutive, rev_app_distr in H. simpl in H.
  now apply trimStart_head in H.
Qed.

(** X16. What the cleaning hands to [JSON.parse] holds no fence marker: no
    three backquotes in a row are left anywhere in it, and it neither
    starts nor ends with white space. *)
Theorem clean_leaves_no_fence text :
  includes (clean text) FENCE = false
  /\ (forall c rest, clean text = c :: rest -> is_space c = false)
  /\ (forall init c, clean text = init ++ [c] -> is_space c = false).
Proof.
  unfold clean. set (r := replace_fence (replace_json_fence text)).
  split; [|split].
  - destruct (trim_infix r) as (pre & post & H).
    apply (includes_infix pre _ post). rewrite <- H.
    apply replace_fence_no_fence.
  - intros c rest H. unfold trim in H.
    destruct (trimEnd_prefix (trimStart r)) as [post H']. rewrite H in H'.
    now apply trimStart_head in H'.
  - intros init c H. unfold trim in H. now apply trimEnd_last in H.
Qed.

Lemma strip_prefix_app_pattern p q s r :
  strip_prefix (p ++ q) s = Some r -> exists r', strip_prefix p s = Some r'.
Proof.
  revert s; induction p as [|a p IH]; intros s H; simpl in *;
    [now exists s|].
  destruct s as [|b s]; [discriminate|].
  destruct (char_eqb a b); [now apply IH | discriminate].
Qed.

(** Where the literal matches nowhere, the replace changes nothing. *)
Lemma replace_global_no_match c0 p s :
  includes s (c0 :: p) = false -> replace_global c0 p s = s.
Proof.
  induction s as [|c s IH]; intros H; [apply replace_global_nil|].
  rewrite includes_unfold in H.
  destruct (strip_prefix (c0 :: p) (c :: s)) eqn:E; [discriminate|].
  rewrite replace_global_cons. unfold match_here. rewrite E.
  now rewrite IH.
Qed.

Lemma includes_longer s p q :
  includes s p = false -> includes s (p ++ q) = false.
Proof.
  induction s as [|c s IH];
    [rewrite (includes_unfold [] p), (includes_unfold [] (p ++ q))
    |rewrite (includes_unfold (c :: s) p), (includes_unfold (c :: s) (p ++ q))].
  - destruct (strip_prefix p []) eqn:E; [discriminate|]. intros _.
    destruct (strip_prefix (p ++ q) []) eqn:E'; [|reflexivity].
    apply strip_prefix_app_pattern in E'. destruct E'; congruence.
  - destruct (strip_prefix p (c :: s)) eqn:E; [discriminate|]. intros H.
    destruct (strip_prefix (p ++ q) (c :: s)) eqn:E'; [|now apply IH].
    apply strip_prefix_app_pattern in E'. destruct E'; congruence.
Qed.

(** X17. A reply without three backquotes in a row is only trimmed: the two
    replaces leave it as it is. *)
Theorem clean_of_unfenced_text text :
  includes text FENCE = false -> clean text = trim text.
Proof.
  intros H. unfold clean, replace_fence, replace_json_fence.
  rewrite (replace_global_no_match BACKQUOTE (lit "``json") text).
  - now rewrite (replace_global_no_match BACKQUOTE (lit "``") text).
  - apply (includes_longer text FENCE (lit "json")). exact H.
Qed.

(** ** White space around a reply *)

Lemma space_not_in_pattern c :
  is_space c = true -> ~ In c (BACKQUOTE :: lit "``json").
Proof.
  intros H Hin. vm_compute in Hin.
  repeat (destruct Hin as [<-|Hin]; [vm_compute in H; discriminate H|]).
  exact Hin.
Qed.

Lemma space_not_backquote c : is_space c = true -> BACKQUOTE <> c.
Proof.
  intros H <-. vm_compute in H. discriminate H.
Qed.

Lemma all_space_cons c s :
  all_space (c :: s) = true <-> is_space c = true /\ all_space s = true.
Proof. unfold all_space. simpl. apply andb_true_iff. Qed.

(** Characters other than the first of the literal are kept at the
    start. *)
Lemma replace_global_spaces_first c0 p pre s :
  (forall c, In c pre -> c0 <> c) ->
  replace_global c0 p (pre ++ s) = pre ++ replace_global c0 p s.
Proof.
  induction pre as [|c pre IH]; intros H; [reflexivity|]. simpl.
  rewrite replace_global_cons. unfold match_here.
  rewrite strip_prefix_cons_ne by (apply H; now left).
  rewrite IH; [reflexivity|]. intros x Hx. apply H. now right.
Qed.

(** Replacing in [t ++ x :: v], for a character [x] that is not in the
    literal: the matches are those of [t] alone, and [x] is taken by the
    last of them exactly when it is a line feed right after that match. *)
Lemma replace_global_app_char c0 p x v :
  ~ In x (c0 :: p) ->
  forall t,
    replace_global c0 p (t ++ x :: v)
    = replace_global c0 p t ++ x :: replace_global c0 p v
    \/ (x = LF
        /\ replace_global c0 p (t ++ x :: v)
           = replace_global c0 p t ++ replace_global c0 p v).
Proof.
  intros Hx t. remember (length t) as n eqn:Hn. revert t Hn.
  induction n as [n IH] using lt_wf_ind. intros [|c t] Hn.
  - left. rewrite replace_global_nil. simpl.
    rewrite replace_global_cons. unfold match_here.
    rewrite strip_prefix_cons_ne; [reflexivity|]. simpl in Hx. intuition.
  - rewrite <- app_comm_cons, !replace_global_cons. unfold match_here.
    destruct (strip_prefix (c0 :: p) (c :: t)) as [rest|] eqn:E.
    + rewrite app_comm_cons, (strip_prefix_app _ _ _ _ E).
      destruct rest as [|r0 rest].
      * rewrite replace_global_nil. cbn [app skip_LF].
        destruct (char_eqb x LF) eqn:Ex.
        -- right. apply char_eqb_eq in Ex. now split.
        -- left. rewrite replace_global_cons. unfold match_here.
           rewrite strip_prefix_cons_ne; [reflexivity|].
           simpl in Hx. intuition.
      * rewrite skip_LF_app by discriminate.
        apply (IH (length (skip_LF (r0 :: rest)))); [|reflexivity].
        subst n. apply strip_prefix_length in E.
        pose proof (skip_LF_length (r0 :: rest)). simpl in *. lia.
    + rewrite app_comm_cons, (strip_prefix_app_none _ _ _ _ E Hx).
      destruct (IH (length t)) with (t := t) as [H|[Hlf H]];
        [subst n; simpl; lia | reflexivity | | ];
        rewrite H; [left | right]; auto.
Qed.

(** White space after the text stays after it, but for a line feed that
    the last match may take. *)
Lemma replace_global_spaces_last c0 p post :
  (forall c, In c post -> ~ In c (c0 :: p)) ->
  forall t, exists post',
    replace_global c0 p (t ++ post) = replace_global c0 p t ++ post'
    /\ (post' = post \/ exists x, post = x :: post').
Proof.
  intros H t. destruct post as [|x v].
  - exists []. rewrite app_nil_r. split; [now rewrite app_nil_r | now left].
  - assert (Hv : replace_global c0 p v = v).
    { rewrite <- (app_nil_r v) at 1.
      rewrite replace_global_spaces_first, replace_global_nil;
        [apply app_nil_r|].
      intros c Hc E. apply (H c); [now right | now left]. }
    destruct (replace_global_app_char c0 p x v) with (t := t) as [E|[_ E]].
    + apply H. now left.
    + exists (x :: v). rewrite E, Hv. split; [reflexivity | now left].
    + exists v. rewrite E, Hv. split; [reflexivity | right; now exists x].
Qed.

Lemma trimStart_spaces_first pre y :
  all_space pre = true -> trimStart (pre ++ y) = trimStart y.
Proof.
  induction pre as [|c pre IH]; intros H; [reflexivity|].
  apply all_space_cons in H. destruct H as [Hc H]. simpl. rewrite Hc.
  now apply IH.
Qed.

Lemma trim_spaces_last y ws : all_space ws = true -> trim (y ++ ws) = trim y.
Proof.
  induction ws as [|c ws IH] using rev_ind; intros H.
  - now rewrite app_nil_r.
  - unfold all_space in H. rewrite forallb_app in H.
    apply andb_true_iff in H. destruct H as [Hws Hc]. simpl in Hc.
    rewrite andb_true_r in Hc.
    rewrite app_assoc, trim_app_space by exact Hc. now apply IH.
Qed.

Lemma all_space_In ws c : all_space ws = true -> In c ws -> is_space c = true.
Proof.
  unfold all_space. rewrite forallb_forall. auto.
Qed.

Lemma clean_spaces pre text post :
  all_space pre = true -> all_space post = true ->
  clean (pre ++ text ++ post) = clean text.
Proof.
  intros Hpre Hpost. unfold clean, replace_json_fence, replace_fence.
  assert (Hfirst : forall c, In c pre -> BACKQUOTE <> c)
    by (intros c Hc; apply space_not_backquote, (all_space_In pre c Hpre Hc)).
  assert (Hjson : forall ws, all_space ws = true ->
            forall c, In c ws -> ~ In c (BACKQUOTE :: lit "``json"))
    by (intros ws Hws c Hc;
        apply space_not_in_pattern, (all_space_In ws c Hws Hc)).
  assert (Hplain : forall ws, all_space ws = true ->
            forall c, In c ws -> ~ In c (BACKQUOTE :: lit "``")).
  { intros ws Hws c Hc Hin. apply (Hjson ws Hws c Hc).
    vm_compute in Hin. vm_compute. tauto. }
  assert (Htail : forall ws ws', all_space ws = true ->
            (ws' = ws \/ exists x, ws = x :: ws') -> all_space ws' = true).
  { intros ws ws' Hws [->|[x ->]]; [exact Hws|].
    now apply all_space_cons in Hws. }
  rewrite replace_global_spaces_first by exact Hfirst.
  destruct (replace_global_spaces_last BACKQUOTE (lit "``json") post
              (Hjson post Hpost) text) as (post1 & -> & H1).
  pose proof (Htail post post1 Hpost H1) as Hpost1.
  rewrite replace_global_spaces_first by exact Hfirst.
  destruct (replace_global_spaces_last BACKQUOTE (lit "``") post1
              (Hplain post1 Hpost1)
              (replace_global BACKQUOTE (lit "``json") text))
    as (post2 & -> & H2).
  pose proof (Htail post1 post2 Hpost1 H2) as Hpost2.
  unfold trim at 1. rewrite trimStart_spaces_first by exact Hpre.
  fold (trim (replace_global BACKQUOTE (lit "``")
                (replace_global BACKQUOTE (lit "``json") text) ++ post2)).
  now apply trim_spaces_last.
Qed.

(** X18. White space around a reply does not matter to the cleaning, with
    or without a fence: blank lines or spaces before and after the text, or
    before the opening fence and after the closing one, leave the cleaned
    text, and so the outcome of both parses, as for the text alone. *)
Theorem clean_ignores_outer_space pre text post tagged :
  all_space pre = true -> all_space post = true ->
  clean (pre ++ text ++ post) = clean text
  /\ clean (pre ++ fenced tagged text ++ post) = clean text.
Proof.
  intros Hpre Hpost. split.
  - now apply clean_spaces.
  - rewrite clean_spaces by assumption. apply clean_fenced.
Qed.

(** * Further properties of the answers *)

Section Failures.
Context {RT : Runtime}.

Ltac final_state :=
  rewrite ?POST_catch_state;
  unfold record_call, store_doc;
  cbn [fst snd calls collection];
  rewrite <- ?app_assoc; cbn [app].

(** The whole run of the success path. *)
Lemma POST_success_run
  w st file walletAddress part checkText analysisText parsedAnalysis r :
  accepted_upload w file walletAddress ->
  classifier_output w file part checkText ->
  positive_verdict checkText ->
  extractor_output w part analysisText ->
  JSON_parse (clean analysisText) = Some parsedAnalysis ->
  (exists u, HealthAnalysis_create_result w
               (analysis_doc file walletAddress parsedAnalysis) = Normal u) ->
  rewardUserForAnalysis_result w walletAddress = Normal r ->
  POST w st
  = (Normal (NextResponse_json (success_envelope file parsedAnalysis r) 200),
     {| calls :=
          calls st
          ++ request_calls part
               (analysis_doc file walletAddress parsedAnalysis) walletAddress;
        collection :=
          collection st
          ++ [analysis_doc file walletAddress parsedAnalysis] |}).
Proof.
  intros Ha Hc Hp (result & Hgen & Htext) Hparse [u Hcreate] Hreward.
  rewrite (POST_reaches_step2 w st _ _ _ _ Ha Hc Hp).
  unfold try_catch, POST_step2, bind, lift, ret, generateContent,
    HealthAnalysis_create, rewardUserForAnalysis.
  rewrite Hgen, Htext, Hparse.
  fold (analysis_doc file walletAddress parsedAnalysis).
  rewrite Hcreate, Hreward. unfold record_call.
  cbn [calls collection]. rewrite <- !app_assoc. reflexivity.
Qed.

(** X19. Nothing deduplicates: the same request, answered the same way by
    the collaborators, run twice in a row, is answered 200 both times and
    leaves its document twice in the collection. *)
Theorem repeated_request_is_stored_twice
  w st file walletAddress part checkText analysisText parsedAnalysis r :
  accepted_upload w file walletAddress ->
  classifier_output w file part checkText ->
  positive_verdict checkText ->
  extractor_output w part analysisText ->
  JSON_parse (clean analysisText) = Some parsedAnalysis ->
  (exists u, HealthAnalysis_create_result w
               (analysis_doc file walletAddress parsedAnalysis) = Normal u) ->
  rewardUserForAnalysis_result w walletAddress = Normal r ->
  let first := POST w st in
  let second := POST w (snd first) in
  status_of first = Some 200
  /\ status_of second = Some 200
  /\ collection (snd second)
     = collection st
       ++ [ analysis_doc file walletAddress parsedAnalysis;
            analysis_doc file walletAddress parsedAnalysis ].
Proof.
  intros Ha Hc Hp Ho Hparse Hcreate Hreward first second.
  subst first second.
  rewrite !(POST_success_run w _ _ _ _ _ _ _ _ Ha Hc Hp Ho Hparse Hcreate
              Hreward).
  cbn [snd collection]. rewrite <- app_assoc. repeat split.
Qed.

(** X20. An error without a message that escapes the body is answered
    with the generic 500 envelope, and the envelope has no details. *)
Theorem error_without_message w st e st' :
  POST_try w st = (Throw e, st') ->
  message e = None ->
  fst (POST w st)
  = Normal
      (NextResponse_json
         (failure (lit "Analiz sırasında bir hata oluştu") None) 500).
Proof.
  intros Hthrow Hm. unfold POST, try_catch. rewrite Hthrow.
  unfold POST_catch, message_includes, bind, console_error, ret.
  now rewrite Hm.
Qed.

(** X21. A 500 answer comes from the outer catch, which has logged the
    error as the last call of the request, or it is the answer to an
    extractor reply that does not parse, which is not logged and comes
    right after the extraction call. *)
Theorem POST_500_inversion w st :
  status_of (POST w st) = Some 500 ->
  (exists e l, calls (snd (POST w st)) = calls st ++ l ++ [ConsoleError e])
  \/ (error_of (POST w st) = Some (lit "Failed to parse AI analysis")
      /\ collection (snd (POST w st)) = collection st
      /\ exists part,
           calls (snd (POST w st))
           = calls st
             ++ [ CallDbConnect;
                  CallGenerateContent HEALTH_DOCUMENT_CHECK_PROMPT part;
                  CallGenerateContent JSON_ANALYSIS_PROMPT part ]).
Proof.
  assert (logged : forall e s l,
            calls s = calls st ++ l ->
            exists e' l',
              calls (snd (POST_catch e s)) = calls st ++ l' ++ [ConsoleError e']).
  { intros e s l H. exists e, l. rewrite POST_catch_state. unfold record_call.
    cbn [calls]. now rewrite H, app_assoc. }
  destruct (POST_run w st)
    as [e Hdb | resp Hdb Hv Hs Hok | file walletAddress r Ha Hv H1].
  - intros _. left. now apply (logged e _ [CallDbConnect]).
  - unfold status_of, response_of. cbn. rewrite Hs. discriminate.
  - destruct H1 as [e He | bytes e Hb He | part checkText r Hc Hh].
    + intros _. left. now apply (logged e _ [CallDbConnect]).
    + intros _. left. eapply logged. unfold record_call. cbn [calls].
      rewrite <- !app_assoc. reflexivity.
    + destruct Hh as [e He | v sT sC sR Hg Hb _ _ _ | v e Hg Hb | r Hp H2].
      * intros _. left. eapply logged. unfold record_call. cbn [calls].
        rewrite <- !app_assoc. reflexivity.
      * intros H. discriminate H.
      * intros _. left. eapply logged. unfold record_call. cbn [calls].
        rewrite <- !app_assoc. reflexivity.
      * destruct H2 as [e He | text Ho Hn | text a e Ho Hs He
                       | text a u e Ho Hs Hu He | text a u r Ho Hs Hu Hr].
        -- intros _. left. eapply logged. unfold record_call. cbn [calls].
           rewrite <- !app_assoc. reflexivity.
        -- intros _. right. split; [reflexivity|]. final_state.
           split; [reflexivity|]. now exists part.
        -- intros _. left. eapply logged. unfold record_call. cbn [calls].
           rewrite <- !app_assoc. reflexivity.
        -- intros _. left. eapply logged. unfold record_call, store_doc.
           cbn [calls]. rewrite <- !app_assoc. reflexivity.
        -- intros H. discriminate H.
Qed.

End Failures.

(** * The encoded file and the size in the rejection *)

Lemma base64_char_ok i : i < 64 -> is_base64_char (base64_char i) = true.
Proof.
  intros H. unfold base64_char, is_base64_char.
  destruct (i <? 26) eqn:E1; [apply N.ltb_lt in E1|apply N.ltb_ge in E1].
  { replace (65 <=? 65 + i) with true by (symmetry; apply N.leb_le; lia).
    replace (65 + i <=? 90) with true by (symmetry; apply N.leb_le; lia).
    reflexivity. }
  destruct (i <? 52) eqn:E2; [apply N.ltb_lt in E2|apply N.ltb_ge in E2].
  { replace (97 <=? 97 + (i - 26)) with true
      by (symmetry; apply N.leb_le; lia).
    replace (97 + (i - 26) <=? 122) with true
      by (symmetry; apply N.leb_le; lia).
    now rewrite orb_true_r. }
  destruct (i <? 62) eqn:E3; [apply N.ltb_lt in E3|apply N.ltb_ge in E3].
  { replace (48 <=? 48 + (i - 52)) with true
      by (symmetry; apply N.leb_le; lia).
    replace (48 + (i - 52) <=? 57) with true
      by (symmetry; apply N.leb_le; lia).
    now rewrite !orb_true_r. }
  destruct (i =? 62); reflexivity.
Qed.

Lemma base64_facts n : forall bytes,
  (length bytes <= n)%nat ->
  Forall (fun b => b < 256) bytes ->
  length (base64 bytes) = (4 * ((length bytes + 2) / 3))%nat
  /\ forallb is_base64_char (base64 bytes) = true.
Proof.
  assert (Hq : forall a, a < 256 -> a / 4 < 64)
    by (intros a Ha; apply N.Div0.div_lt_upper_bound; lia).
  assert (Hm : forall a k, 0 < k -> a mod k < k)
    by (intros a k Hk; apply N.mod_lt; lia).
  assert (Hd : forall b k q, b < k * q -> b / k < q)
    by (intros b k q Hb; apply N.Div0.div_lt_upper_bound; lia).
  induction n as [n IH] using lt_wf_ind. intros bytes Hlen Hall.
  destruct bytes as [|a [|b [|c rest]]].
  - split; reflexivity.
  - inversion Hall as [|? ? Ha _]; subst. split; [reflexivity|].
    cbn [base64 forallb]. rewrite !base64_char_ok; [reflexivity| |].
    + pose proof (Hm a 4 ltac:(lia)). lia.
    + now apply Hq.
  - inversion Hall as [|? ? Ha Hall']; subst.
    inversion Hall' as [|? ? Hb _]; subst. split; [reflexivity|].
    cbn [base64 forallb]. rewrite !base64_char_ok; [reflexivity| | |].
    + pose proof (Hm b 16 ltac:(lia)). lia.
    + pose proof (Hm a 4 ltac:(lia)). pose proof (Hd b 16 16 ltac:(lia)). lia.
    + now apply Hq.
  - inversion Hall as [|? ? Ha Hall']; subst.
    inversion Hall' as [|? ? Hb Hall'']; subst.
    inversion Hall'' as [|? ? Hc Hrest]; subst.
    simpl in Hlen.
    destruct (IH (length rest) ltac:(lia) rest (le_n _) Hrest) as [IHl IHc].
    split.
    + cbn [base64 length]. rewrite IHl.
      replace (S (S (S (length rest))) + 2)%nat
        with (1 * 3 + (length rest + 2))%nat by lia.
      rewrite Nat.div_add_l by lia. lia.
    + cbn [base64 forallb]. rewrite IHc, !base64_char_ok; [reflexivity| | | |].
      * apply Hm. lia.
      * pose proof (Hm b 16 ltac:(lia)). pose proof (Hd c 64 4 ltac:(lia)).
        lia.
      * pose proof (Hm a 4 ltac:(lia)). pose proof (Hd b 16 16 ltac:(lia)).
        lia.
      * now apply Hq.
Qed.

(** X22. The text the handler sends to the model for a file is a
    well-formed base64 text: four characters for every three bytes, the
    last group padded, so its length is four times the number of groups;
    and all its characters are letters, digits, [+], [/] or [=]. *)
Theorem base64_is_well_formed bytes :
  Forall (fun b => b < 256) bytes ->
  length (base64 bytes) = (4 * ((length bytes + 2) / 3))%nat
  /\ forallb is_base64_char (base64 bytes) = true.
Proof.
  intros H. now apply (base64_facts (length bytes)).
Qed.

(** X23. The size printed in the rejection of an oversized file grows with
    the size and is never below 20.00: a file just over the ceiling is
    reported as 20.00MB against the maximum of 20MB. *)
Theorem reported_size_is_monotone size size' :
  MAX_FILE_SIZE < size ->
  size <= size' ->
  2000 <= toFixed2_n size /\ toFixed2_n size <= toFixed2_n size'.
Proof.
  intros Hmax Hle. unfold toFixed2_n, MAX_FILE_SIZE in *. split.
  - apply N.div_le_lower_bound; lia.
  - apply N.Div0.div_le_mono. lia.
Qed.

(** ** Further runs on the sample requests *)
Module MoreRuns.
Import Reference Samples Runs.

#[local] Existing Instance runtime.

Definition tokens : TokenReward :=
  {| earnedTokens := 10%Z; totalTokens := 30%Z; isNewUser := false |}.

Definition parsed_analysis : Value Z :=
  VObject
    [ (lit "title", VString (lit "Blood test"));
      (lit "documentType", VString (lit "Blood Test"));
      (lit "findings", VArray []);
      (lit "confidence", VNumber 85%Z) ].

(** Every collaborator answers. *)
Definition happy_world : World :=
  world (Normal tt) (form report) positive_reply analysis_reply (Normal tt)
    (Normal tokens).

Lemma POST_success_witness : status_of (POST happy_world st0) = Some 200.
Proof.
  destruct (POST_success happy_world st0 report wallet report_part
              positive_reply analysis_reply parsed_analysis tokens)
    as (H & _).
  - apply report_accepted.
  - apply report_classifier_output.
  - apply positive_reply_verdict.
  - apply report_extractor_output.
  - reflexivity.
  - now exists tt.
  - reflexivity.
  - unfold status_of, response_of. now rewrite H.
Defined.

Lemma POST_200_inversion_witness :
  exists file walletAddress, validated happy_world = Some (file, walletAddress).
Proof.
  destruct (POST_200_inversion happy_world st0)
    as (file & walletAddress & _ & _ & _ & H & _).
  - vm_compute. reflexivity.
  - now exists file, walletAddress.
Defined.

Lemma POST_400_inversion_witness :
  collection
    (snd (POST (world (Normal tt) (form report) negative_reply analysis_reply
                  (Normal tt) reward) st0))
  = collection st0.
Proof.
  apply (POST_400_inversion
           (world (Normal tt) (form report) negative_reply analysis_reply
              (Normal tt) reward) st0).
  vm_compute. reflexivity.
Defined.

Lemma create_failure_skips_reward_witness :
  status_of (POST (world (Normal tt) (form report) positive_reply
                     analysis_reply (Throw db_down) reward) st0)
  = Some 500.
Proof.
  apply (create_failure_skips_reward
           (world (Normal tt) (form report) positive_reply analysis_reply
              (Throw db_down) reward)
           st0 report wallet report_part positive_reply analysis_reply
           parsed_analysis db_down).
  - apply report_accepted.
  - apply report_classifier_output.
  - apply positive_reply_verdict.
  - apply report_extractor_output.
  - reflexivity.
  - reflexivity.
Defined.

(** The body is not a multipart form, and the error even names an API
    key. *)
Lemma unreadable_form_is_400_witness :
  status_of (POST (world (Normal tt) (Throw quota_error) positive_reply
                     analysis_reply (Normal tt) reward) st0)
  = Some 400.
Proof.
  rewrite (unreadable_form_is_400
             (world (Normal tt) (Throw quota_error) positive_reply
                analysis_reply (Normal tt) reward) st0 quota_error).
  - reflexivity.
  - now exists tt.
  - reflexivity.
Defined.

Lemma database_failure_is_500_witness :
  status_of (POST (world (Throw db_down) (form report) positive_reply
                     analysis_reply (Normal tt) reward) st0)
  = Some 500.
Proof.
  apply (database_failure_is_500
           (world (Throw db_down) (form report) positive_reply analysis_reply
              (Normal tt) reward) st0 db_down).
  reflexivity.
Defined.

Lemma presence_checks_witness :
  status_of (POST no_file_world st0) = Some 400.
Proof.
  destruct (presence_checks no_file_world st0
              {| FormData_file := None;
                 FormData_walletAddress := Some wallet |})
    as (H & _).
  - now exists tt.
  - reflexivity.
  - now rewrite H.
Defined.

(** A plain-text upload, and a large one at that. *)
Definition notes : File :=
  {| File_name := lit "notes.txt";
     File_type := lit "text/plain";
     File_size := 30000000;
     File_arrayBuffer := fun _ => Normal (repeat 0 (N.to_nat 30000000)) |}.

Lemma unsupported_type_rejected_witness :
  error_of (POST (world (Normal tt) (form notes) positive_reply
                    analysis_reply (Normal tt) reward) st0)
  = Some (lit "Desteklenmeyen dosya tipi: text/plain").
Proof.
  rewrite (unsupported_type_rejected
             (world (Normal tt) (form notes) positive_reply analysis_reply
                (Normal tt) reward) st0 notes wallet).
  - reflexivity.
  - now exists tt.
  - reflexivity.
  - discriminate.
  - reflexivity.
Defined.

Lemma classifier_failure_is_500_witness :
  status_of (POST quota_world st0) = Some 500.
Proof.
  apply (classifier_failure_is_500 quota_world st0 report wallet
           (lit "%PDF-1.4") quota_error).
  - repeat split; try (now exists tt); discriminate.
  - reflexivity.
  - now left.
Defined.

Lemma null_verdict_is_500_witness :
  collection
    (snd (POST (world (Normal tt) (form report) (lit "null") analysis_reply
                  (Normal tt) reward) st0))
  = collection st0.
Proof.
  apply (null_verdict_is_500
           (world (Normal tt) (form report) (lit "null") analysis_reply
              (Normal tt) reward)
           st0 report wallet report_part (lit "null")).
  - apply report_accepted.
  - apply report_classifier_output.
  - reflexivity.
Defined.

Lemma verdict_without_fields_rejects_witness :
  status_of (POST (world (Normal tt) (form report) (lit "{}") analysis_reply
                     (Normal tt) reward) st0)
  = Some 400.
Proof.
  rewrite (verdict_without_fields_rejects
             (world (Normal tt) (form report) (lit "{}") analysis_reply
                (Normal tt) reward)
             st0 report wallet report_part (lit "{}") (VObject [])).
  - reflexivity.
  - apply report_accepted.
  - apply report_classifier_output.
  - reflexivity.
  - repeat split.
Defined.

(** A verdict that spells its flag as a string. *)
Definition string_reply : jsstring :=
  json_text "{'isHealthDocument': 'false', 'confidence': 80}".

Lemma string_verdict_is_positive_witness :
  status_of (POST (world (Normal tt) (form report) string_reply
                     analysis_reply (Normal tt) reward) st0)
  = Some 200.
Proof.
  rewrite (string_verdict_is_positive
             (world (Normal tt) (form report) string_reply analysis_reply
                (Normal tt) reward)
             st0 report wallet report_part string_reply
             [ (lit "isHealthDocument", VString (lit "false"));
               (lit "confidence", VNumber 80%Z) ]
             (lit "false")).
  - vm_compute. reflexivity.
  - apply report_accepted.
  - apply report_classifier_output.
  - reflexivity.
  - reflexivity.
  - discriminate.
Defined.

Lemma GET_lists_the_accepted_types_witness :
  Array_includes (supportedFileTypes (snd GET)) (File_type notes) = false.
Proof.
  apply (GET_lists_the_accepted_types
           (world (Normal tt) (form notes) positive_reply analysis_reply
              (Normal tt) reward) st0 notes wallet).
  - now exists tt.
  - reflexivity.
  - discriminate.
  - reflexivity.
Defined.

Lemma clean_of_unfenced_text_witness :
  clean (lit "  [1, 2]
") = lit "[1, 2]".
Proof.
  rewrite (clean_of_unfenced_text (lit "  [1, 2]
")).
  - reflexivity.
  - reflexivity.
Defined.

Lemma clean_ignores_outer_space_witness :
  clean (lit "
  " ++ fenced true positive_reply ++ lit "
") = clean positive_reply.
Proof.
  apply (clean_ignores_outer_space (lit "
  ") positive_reply (lit "
") true); reflexivity.
Defined.

Lemma repeated_request_is_stored_twice_witness :
  length (collection (snd (POST happy_world (snd (POST happy_world st0)))))
  = 2%nat.
Proof.
  destruct (repeated_request_is_stored_twice happy_world st0 report wallet
              report_part positive_reply analysis_reply parsed_analysis
              tokens)
    as (_ & _ & H).
  - apply report_accepted.
  - apply report_classifier_output.
  - apply positive_reply_verdict.
  - apply report_extractor_output.
  - reflexivity.
  - now exists tt.
  - reflexivity.
  - now rewrite H.
Defined.

(** The connection is refused with an error that has no message. *)
Definition silent_world : World :=
  world (Throw {| message := None |}) (form report) positive_reply
    analysis_reply (Normal tt) reward.

Lemma error_without_message_witness :
  details_of (POST silent_world st0) = None.
Proof.
  unfold details_of, response_of.
  rewrite (error_without_message silent_world st0 {| message := None |}
             {| calls := [CallDbConnect]; collection := [] |});
    reflexivity.
Defined.

Lemma POST_500_inversion_witness :
  (exists e l,
      calls (snd (POST silent_world st0)) = calls st0 ++ l ++ [ConsoleError e])
  \/ (error_of (POST silent_world st0)
      = Some (lit "Failed to parse AI analysis")
      /\ collection (snd (POST silent_world st0)) = collection st0
      /\ exists part,
           calls (snd (POST silent_world st0))
           = calls st0
             ++ [ CallDbConnect;
                  CallGenerateContent HEALTH_DOCUMENT_CHECK_PROMPT part;
                  CallGenerateContent JSON_ANALYSIS_PROMPT part ]).
Proof.
  apply (POST_500_inversion silent_world st0). vm_compute. reflexivity.
Defined.

Lemma base64_is_well_formed_witness :
  length (base64 (lit "%PDF-1.4")) = 12%nat.
Proof.
  destruct (base64_is_well_formed (lit "%PDF-1.4")) as [H _].
  - repeat constructor.
  - rewrite H. reflexivity.
Defined.

Lemma reported_size_is_monotone_witness :
  2000 <= toFixed2_n 20971521 /\ toFixed2_n 20971521 <= toFixed2_n 31457280.
Proof.
  apply (reported_size_is_monotone 20971521 31457280).
  - reflexivity.
  - discriminate.
Defined.

End MoreRuns.
